(** * gscpy / i.script: importing python scripts into the GRASS script folder

    A shallow embedding of [gscpy/i_script.py] (class [Grassify], the helper
    [change_dict_value] and [main]) together with the pieces of the Python
    runtime the script relies on: [str] methods, [posixpath], [re], [os],
    [shutil] and the message functions of [grass.script]. The runtime is
    that of Python 2.7 on a POSIX system, which the GRASS versions the script
    looks for (7.0 to 7.4) run their scripts with.

    Python [str] values are [string]s (8-bit characters), Python [int]s are
    [Z], the file system is a finite map from path names to nodes, and the
    statements of the script run in a state-and-exception monad over a
    [world] (file system, emitted messages, object identities, and what the
    regular expression engine makes of a pattern). *)

From Stdlib Require Import ZArith Lia List Ascii String Bool.
From stdpp Require Import gmap strings list fin_maps.

Local Open Scope Z_scope.

(** ** Python [str] *)

Module PyStr.

(** [len(s)] *)
Definition len (s : string) : Z := Z.of_nat (String.length s).

Fixpoint drop (n : nat) (s : string) : string :=
  match n, s with
  | O, _ => s
  | S _, "" => ""
  | S n', String _ s' => drop n' s'
  end.

Fixpoint take (n : nat) (s : string) : string :=
  match n, s with
  | O, _ => ""
  | S _, "" => ""
  | S n', String c s' => String c (take n' s')
  end.

(** A slice bound as Python normalises it: negative bounds count from the
    end, and everything is clipped to [0 .. len s]. *)
Definition bound (s : string) (i : Z) : nat :=
  Z.to_nat (Z.min (len s) (if i <? 0 then Z.max 0 (len s + i) else i)).

(** [s[i:]] *)
Definition slice_from (s : string) (i : Z) : string := drop (bound s i) s.

(** [s[:j]] *)
Definition slice_to (s : string) (j : Z) : string := take (bound s j) s.

(** [s[i:j]] *)
Definition slice (s : string) (i j : Z) : string :=
  take (bound s j - bound s i) (drop (bound s i) s).

(** [s.startswith(p)] *)
Fixpoint startswith (s p : string) {struct p} : bool :=
  match p, s with
  | "", _ => true
  | String _ _, "" => false
  | String a p', String b s' => if Ascii.eqb a b then startswith s' p' else false
  end.

(** [s.endswith(suffix)]: the last [len suffix] characters are [suffix]. *)
Definition endswith (s suffix : string) : bool :=
  (String.length suffix <=? String.length s)%nat &&
  String.eqb (drop (String.length s - String.length suffix) s) suffix.

(** [sub in s] for two strings: [sub] occurs as a contiguous substring. *)
Fixpoint contains (s sub : string) : bool :=
  startswith s sub ||
  match s with
  | "" => false
  | String _ s' => contains s' sub
  end.

(** [c in s] for a single character. *)
Fixpoint has_char (c : ascii) (s : string) : bool :=
  match s with
  | "" => false
  | String a s' => Ascii.eqb a c || has_char c s'
  end.

(** [s.rfind(c)] for a one-character needle: the highest index holding
    [c], or [-1]. *)
Fixpoint rfind (s : string) (c : ascii) : Z :=
  match s with
  | "" => -1
  | String a s' =>
      let r := rfind s' c in
      if 0 <=? r then r + 1 else if Ascii.eqb a c then 0 else -1
  end.

(** [s.rstrip(c)] for a one-character set. *)
Fixpoint rstrip (s : string) (c : ascii) : string :=
  match s with
  | "" => ""
  | String a s' =>
      match rstrip s' c with
      | "" => if Ascii.eqb a c then "" else String a ""
      | t => String a t
      end
  end.

(** [s == c * len(s)] *)
Fixpoint all_char (c : ascii) (s : string) : bool :=
  match s with
  | "" => true
  | String a s' => Ascii.eqb a c && all_char c s'
  end.

(** [s.replace(old, new)] for a non-empty [old]: scanning from the left,
    every non-overlapping occurrence of [old] becomes [new]. [skip] counts
    the characters of an occurrence that are still to be dropped. *)
Fixpoint replace_go (old new : string) (skip : nat) (s : string) : string :=
  match s with
  | "" => ""
  | String a s' =>
      match skip with
      | S k => replace_go old new k s'
      | O =>
          if startswith s old
          then new +:+ replace_go old new (String.length old - 1) s'
          else String a (replace_go old new O s')
      end
  end.

Definition replace (s old new : string) : string := replace_go old new O s.

(** What [replace] amounts to on single characters. *)
Fixpoint map_char (f : ascii -> ascii) (s : string) : string :=
  match s with
  | "" => ""
  | String a s' => String (f a) (map_char f s')
  end.

End PyStr.

(** ** [posixpath] *)

Module posixpath.
Import PyStr.

Definition sep : ascii := "/"%char.
Definition extsep : ascii := "."%char.

(** [os.path.basename(p)] *)
Definition basename (p : string) : string :=
  let i := rfind p sep + 1 in
  slice_from p i.

(** [os.path.split(p)] *)
Definition split (p : string) : string * string :=
  let i := rfind p sep + 1 in
  let head := slice_to p i in
  let tail := slice_from p i in
  let head :=
    if negb (String.eqb head "") && negb (all_char sep head)
    then rstrip head sep else head in
  (head, tail).

(** [os.path.dirname(p)] *)
Definition dirname (p : string) : string := fst (split p).

(** The [while filenameIndex < dotIndex] loop of [genericpath._splitext];
    [n] is the number of iterations left, [dotIndex - filenameIndex]. *)
Fixpoint splitext_loop (p : string) (dotIndex : Z) (n : nat)
    (filenameIndex : Z) : string * string :=
  match n with
  | O => (p, slice_to p 0)
  | S n' =>
      if negb (String.eqb (slice p filenameIndex (filenameIndex + 1))
                 (String extsep ""))
      then (slice_to p dotIndex, slice_from p dotIndex)
      else splitext_loop p dotIndex n' (filenameIndex + 1)
  end.

(** [os.path.splitext(p)] *)
Definition splitext (p : string) : string * string :=
  let sepIndex := rfind p sep in
  let dotIndex := rfind p extsep in
  if sepIndex <? dotIndex
  then splitext_loop p dotIndex (Z.to_nat (dotIndex - (sepIndex + 1)))
         (sepIndex + 1)
  else (p, slice_to p 0).

(** [os.path.join(a, b)] *)
Definition join (a b : string) : string :=
  if startswith b (String sep "") then b
  else if String.eqb a "" || endswith a (String sep "") then a +:+ b
  else a +:+ String sep "" +:+ b.

End posixpath.

(** ** [re]

    Patterns made of literal characters, [.], escaped punctuation and the
    greedy operators [*], [+], [?] (the fragment) are compiled and matched
    by the definitions of this module. For any other pattern text the
    answer of [re.compile] is taken from the environment ([w_re] below),
    so that the script is modelled for every pattern it can be given. *)

Module re.

Inductive regex : Type :=
| Never
| Eps
| Chr (c : ascii)
| Dot
| Cat (r1 r2 : regex)
| Alt (r1 r2 : regex)
| Star (r : regex).

(** [.] matches every character but a newline. *)
Definition dot_matches (c : ascii) : bool := negb (Ascii.eqb c "010"%char).

Fixpoint nullable (r : regex) : bool :=
  match r with
  | Never => false
  | Eps => true
  | Chr _ => false
  | Dot => false
  | Cat r1 r2 => nullable r1 && nullable r2
  | Alt r1 r2 => nullable r1 || nullable r2
  | Star _ => true
  end.

(** What is left of [r] after reading [c]. *)
Fixpoint deriv (c : ascii) (r : regex) : regex :=
  match r with
  | Never => Never
  | Eps => Never
  | Chr a => if Ascii.eqb a c then Eps else Never
  | Dot => if dot_matches c then Eps else Never
  | Cat r1 r2 =>
      if nullable r1
      then Alt (Cat (deriv c r1) r2) (deriv c r2)
      else Cat (deriv c r1) r2
  | Alt r1 r2 => Alt (deriv c r1) (deriv c r2)
  | Star r1 => Cat (deriv c r1) (Star r1)
  end.

(** [pattern.match(s)] is a match object (truthy) when some prefix of [s],
    possibly empty, is matched by the pattern, and [None] otherwise. *)
Fixpoint match_ (pattern : regex) (s : string) : bool :=
  nullable pattern ||
  match s with
  | "" => false
  | String c s' => match_ (deriv c pattern) s'
  end.

Definition is_quantifier (c : ascii) : bool :=
  Ascii.eqb c "*" || Ascii.eqb c "+" || Ascii.eqb c "?".

Definition is_special (c : ascii) : bool :=
  existsb (Ascii.eqb c)
    ["."; "^"; "$"; "*"; "+"; "?"; "{"; "}"; "["; "]"; "\"; "|"; "("; ")"]%char.

Definition quantify (q : ascii) (r : regex) : regex :=
  if Ascii.eqb q "*" then Star r
  else if Ascii.eqb q "+" then Cat r (Star r)
  else Alt Eps r.

Definition flush (acc : regex) (last : option regex) : regex :=
  match last with
  | Some a => Cat acc a
  | None => acc
  end.

(** One left-to-right pass over the pattern text. [acc] is the sequence
    read so far, [last] the atom that may still take a quantifier, [esc]
    tells that the previous character was a backslash. *)
Fixpoint compile_go (acc : regex) (last : option regex) (esc : bool)
    (s : string) : option regex :=
  match s with
  | "" => if esc then None else Some (flush acc last)
  | String c s' =>
      if esc then
        if is_special c then compile_go (flush acc last) (Some (Chr c)) false s'
        else None
      else if Ascii.eqb c "\" then compile_go acc last true s'
      else if is_quantifier c then
        match last with
        | Some a => compile_go (Cat acc (quantify c a)) None false s'
        | None => None
        end
      else if Ascii.eqb c "." then compile_go (flush acc last) (Some Dot) false s'
      else if is_special c then None
      else compile_go (flush acc last) (Some (Chr c)) false s'
  end.

(** The compilation of a text of the fragment: literal characters, [.],
    backslash-escaped punctuation and the greedy postfix operators [*],
    [+], [?]. [None] is returned for a text that is not of the fragment,
    be it a valid pattern or not. *)
Definition compile (p : string) : option regex := compile_go Eps None false p.

(** A compiled pattern object, as far as the script uses it: its method
    [match], which tells whether [pattern.match(s)] is a match object. *)
Definition pattern : Type := string -> bool.

(** What the engine of the environment makes of a pattern text: [None]
    where [re.compile] raises [re.error], the compiled pattern otherwise. *)
Definition engine : Type := string -> option pattern.

(** A repetition operator at the very start has nothing to repeat. *)
Definition nothing_to_repeat (p : string) : bool :=
  match p with
  | "" => false
  | String c _ => is_quantifier c
  end.

(** The tokenizer pairs every backslash with the character after it; a
    backslash that is left without one at the end of the text is a bogus
    escape. [esc] tells that the previous character was such a backslash. *)
Fixpoint bogus_escape (esc : bool) (p : string) : bool :=
  match p with
  | "" => esc
  | String c p' =>
      if esc then bogus_escape false p' else bogus_escape (Ascii.eqb c "\") p'
  end.

(** Texts that [re.compile] rejects whatever else they hold. *)
Definition malformed (p : string) : bool :=
  nothing_to_repeat p || bogus_escape false p.

(** [re.compile(p)], for every text [p]: a text of the fragment is
    compiled here, a malformed text is an error, and any other text is
    left to the engine [e] of the environment. *)
Definition compiled (e : engine) (p : string) : option pattern :=
  match compile p with
  | Some r => Some (match_ r)
  | None => if malformed p then None else e p
  end.

(** An engine that knows no pattern beyond the fragment. *)
Definition fragment_only : engine := fun _ => None.

End re.

(** ** The world the script runs in *)

Inductive node : Type :=
| File (content : list Byte.byte)
| Dir.

(** One record of [os.walk]: [(dirpath, dirnames, filenames)]. *)
Definition walk_rec : Type := string * list string * list string.

Inductive event : Type :=
| Debug (msg : string) (level : Z)
| Message (msg : string)
| Fatal (msg : string)
| Stdout (text : string).

Inductive errno : Type := ENOENT | EEXIST | EISDIR | ENOTDIR.

Inductive exn : Type :=
| AttributeError (attr : string)
| KeyError (key : string)
| IndexError
| TypeError
| re_error
| IOError (e : errno)
| OSError (e : errno)
| shutil_Error.

(** [w_fs] maps a path name to the node it names. A write is recorded
    under the name it is made through; two names of one object (links,
    [.] and [..] components, relative and absolute spellings) are not
    related by the model. [w_walk top] is the sequence of records
    [os.walk(top)] yields. [w_log] collects what the script emits, oldest
    first. [w_next] is the identity the next list object receives whose
    identity the script looks at (the lists of [__init__]). [w_re] is the
    regular expression engine, asked about the pattern texts that the
    module [re] above does not cover. *)
Record world : Type := MkWorld {
  w_fs : gmap string node;
  w_walk : string -> list walk_rec;
  w_log : list event;
  w_next : nat;
  w_re : re.engine
}.

(** A world whose engine knows the patterns of the fragment only. *)
Definition World (fs : gmap string node) (walk : string -> list walk_rec)
    (log : list event) (next : nat) : world :=
  MkWorld fs walk log next re.fragment_only.

(** How a block ends: it returns a value, it raises an exception, or it
    calls [sys.exit]. The script has no handler of its own, so an
    exception ends the run as well (the interpreter then reports it, with
    a status that is not 0); the two are kept apart. *)
Inductive outcome (A : Type) : Type :=
| Ret (a : A)
| Raise (e : exn)
| Exit (code : Z).
Arguments Ret {A} a.
Arguments Raise {A} e.
Arguments Exit {A} code.

Definition M (A : Type) : Type := world -> outcome A * world.

Definition ret {A} (a : A) : M A := fun w => (Ret a, w).

Definition bind {A B} (m : M A) (k : A -> M B) : M B :=
  fun w =>
    match m w with
    | (Ret a, w') => k a w'
    | (Raise e, w') => (Raise e, w')
    | (Exit c, w') => (Exit c, w')
    end.

Declare Scope py_scope.
Delimit Scope py_scope with py.
Notation "x <- c1 ;; c2" := (bind c1 (fun x => c2))
  (at level 100, c1 at next level, right associativity) : py_scope.
Notation "c1 ;;; c2" := (bind c1 (fun _ => c2))
  (at level 100, right associativity) : py_scope.
Local Open Scope py_scope.

Definition raise {A} (e : exn) : M A := fun w => (Raise e, w).

(** [sys.exit(code)] *)
Definition sys_exit {A} (code : Z) : M A := fun w => (Exit code, w).

Definition emit (e : event) : M unit :=
  fun w => (Ret tt, MkWorld (w_fs w) (w_walk w) (w_log w ++ [e]) (w_next w) (w_re w)).

Definition get_fs : M (gmap string node) := fun w => (Ret (w_fs w), w).

Definition put_fs (fs : gmap string node) : M unit :=
  fun w => (Ret tt, MkWorld fs (w_walk w) (w_log w) (w_next w) (w_re w)).

(** [for x in l: body(x)] *)
Fixpoint for_each {A} (l : list A) (body : A -> M unit) : M unit :=
  match l with
  | [] => ret tt
  | x :: l' => body x ;;; for_each l' body
  end.

(** A loop that threads the variables it assigns through its iterations. *)
Fixpoint for_fold {A S} (l : list A) (body : S -> A -> M S) (s : S) : M S :=
  match l with
  | [] => ret s
  | x :: l' => s' <- body s x ;; for_fold l' body s'
  end.

(** A Python list of strings: its identity and its items. *)
Record pylist : Type := PyList { oid : nat; items : list string }.

(** The list display [[]] builds a new, empty list object. *)
Definition new_list : M pylist :=
  fun w => (Ret (PyList (w_next w) []),
            MkWorld (w_fs w) (w_walk w) (w_log w) (S (w_next w)) (w_re w)).

(** [l.append(x)] *)
Definition append (l : pylist) (x : string) : pylist :=
  PyList (oid l) (items l ++ [x]).

(** [a is b] *)
Definition is_ (a b : pylist) : bool := Nat.eqb (oid a) (oid b).

(** [re.compile(p)], as the script calls it. *)
Definition re_compile (p : string) : M re.pattern :=
  fun w =>
    match re.compiled (w_re w) p with
    | Some pattern => (Ret pattern, w)
    | None => (Raise re_error, w)
    end.

(** ** [grass.script] *)

Module gs.

Definition debug (msg : string) (level : Z) : M unit := emit (Debug msg level).

Definition message (msg : string) : M unit := emit (Message msg).

(** [gs.fatal] prints the message and ends the process with status 1. *)
Definition fatal {A} (msg : string) : M A := emit (Fatal msg) ;;; sys_exit 1.

End gs.

(** ** [os] and [shutil] *)

Module os.

Definition exists_in (fs : gmap string node) (p : string) : bool :=
  match fs !! p with
  | Some _ => true
  | None => false
  end.

Definition isdir_in (fs : gmap string node) (p : string) : bool :=
  match fs !! p with
  | Some Dir => true
  | _ => false
  end.

(** [os.path.exists(p)] *)
Definition path_exists (p : string) : M bool :=
  fs <- get_fs ;; ret (exists_in fs p).

(** [os.path.isdir(p)] *)
Definition path_isdir (p : string) : M bool :=
  fs <- get_fs ;; ret (isdir_in fs p).

(** [os.walk(top)] *)
Definition walk (top : string) : M (list walk_rec) :=
  fun w => (Ret (w_walk w top), w).

(** Whether an entry can be created at [p]: its parent must be a
    directory. An empty parent is the current directory. *)
Definition parent_check (fs : gmap string node) (p : string) : option errno :=
  let d := posixpath.dirname p in
  if String.eqb d "" then None
  else match fs !! d with
       | Some Dir => None
       | Some (File _) => Some ENOTDIR
       | None => Some ENOENT
       end.

(** The name a directory is made under: separators at the end of the
    argument are not part of it. *)
Definition leaf_name (p : string) : string :=
  if PyStr.all_char posixpath.sep p then p else PyStr.rstrip p posixpath.sep.

(** [os.mkdir(p)]; the empty name names nothing. *)
Definition mkdir (p : string) : M unit :=
  fs <- get_fs ;;
  let p := leaf_name p in
  if String.eqb p "" then raise (OSError ENOENT)
  else if exists_in fs p then raise (OSError EEXIST)
  else match parent_check fs p with
       | Some e => raise (OSError e)
       | None => put_fs (<[p := Dir]> fs)
       end.

(** [try: m except OSError as e: if e.errno != EEXIST: raise] *)
Definition ignore_exists (m : M unit) : M unit :=
  fun w =>
    match m w with
    | (Raise (OSError EEXIST), w') => (Ret tt, w')
    | r => r
    end.

(** The body of [os.makedirs(name)]; [recur] is the recursive call. *)
Definition makedirs_body (recur : string -> M unit) (name : string) : M unit :=
  let '(head, tail) := posixpath.split name in
  let '(head, tail) :=
    if String.eqb tail "" then posixpath.split head else (head, tail) in
  e <- path_exists head ;;
  if negb (String.eqb head "") && negb (String.eqb tail "") && negb e
  then
    ignore_exists (recur head) ;;;
    if String.eqb tail "." then ret tt else mkdir name
  else mkdir name.

(** [os.makedirs(name)]: the leaf directory and every missing ancestor.
    The recursive call is on the head of [name], which is shorter than
    [name]; [fuel] bounds the depth of the recursion. *)
Fixpoint makedirs_go (fuel : nat) (name : string) : M unit :=
  match fuel with
  | O => ret tt
  | S fuel' => makedirs_body (makedirs_go fuel') name
  end.

Definition makedirs (name : string) : M unit :=
  makedirs_go (S (String.length name)) name.

End os.

Module shutil.

(** [shutil.copyfile(src, dst)]: refuses to copy a file onto itself (here:
    onto the name it is read from), opens [src] for reading, then [dst]
    for writing, and writes the bytes read. *)
Definition copyfile (src dst : string) : M unit :=
  fs <- get_fs ;;
  if String.eqb src dst && os.exists_in fs src then raise shutil_Error
  else match fs !! src with
       | None => raise (IOError ENOENT)
       | Some Dir => raise (IOError EISDIR)
       | Some (File content) =>
           match fs !! dst with
           | Some Dir => raise (IOError EISDIR)
           | _ =>
               match os.parent_check fs dst with
               | Some e => raise (IOError e)
               | None => put_fs (<[dst := File content]> fs)
               end
           end
       end.

(** [shutil.copy(src, dst)]; permission bits are not part of the model. *)
Definition copy (src dst : string) : M unit :=
  d <- os.path_isdir dst ;;
  let dst := if d then posixpath.join dst (posixpath.basename src) else dst in
  copyfile src dst.

End shutil.

(** ** The script: class [Grassify] *)

Module Grassify.

(** [self.exclusion] is the built-in list of five names, or the string the
    caller passed. *)
Inductive exclusion_t : Type :=
| ExclList (names : list string)
| ExclStr (s : string).

(** [f in self.exclusion]: membership in the list, or, for a string,
    occurrence as a substring. *)
Definition py_in (f : string) (e : exclusion_t) : bool :=
  match e with
  | ExclList names => existsb (String.eqb f) names
  | ExclStr s => PyStr.contains s f
  end.

(** The attributes of an instance. [export_path] and [files] are [None]
    as long as no assignment has created the attribute. *)
Record t : Type := Build {
  extension : string;
  candidates : list string;
  exclusion : exclusion_t;
  import_path : string;
  export_path : option string;
  files : option pylist
}.

Definition set_export_path (self : t) (p : string) : t :=
  Build (extension self) (candidates self) (exclusion self)
    (import_path self) (Some p) (files self).

Definition set_files (self : t) (l : pylist) : t :=
  Build (extension self) (candidates self) (exclusion self)
    (import_path self) (export_path self) (Some l).

(** [self.export_path], read. *)
Definition get_export_path (self : t) : M string :=
  match export_path self with
  | Some p => ret p
  | None => raise (AttributeError "export_path")
  end.

(** [self.files], read. *)
Definition get_files (self : t) : M pylist :=
  match files self with
  | Some l => ret l
  | None => raise (AttributeError "files")
  end.

(** The body of [for f in match] in [__filter]. *)
Definition filter_file (self : t) (root : string) (files : pylist)
    (f : string) : pylist :=
  if py_in f (exclusion self) then files
  else if PyStr.endswith f (extension self)
  then append files (posixpath.join root f)
  else files.

(** The body of [for rec in os.walk(self.import_path)] in [__filter]. The
    built-in [filter] returns a list, so the test [match is None] that
    follows it in the source never holds. *)
Definition filter_rec (self : t) (pattern : re.pattern) (files : pylist)
    (rec : walk_rec) : pylist :=
  match snd rec with
  | [] => files
  | _ =>
      let match_ := List.filter pattern (snd rec) in
      fold_left (filter_file self (fst (fst rec))) match_ files
  end.

Definition __filter (self : t) (filter_p : string) : M pylist :=
  pattern <- re_compile filter_p ;;
  files <- new_list ;;
  recs <- os.walk (import_path self) ;;
  ret (fold_left (filter_rec self pattern) recs files).

Definition default_exclusion : list string :=
  ["__init__.py"; "__version__.py"; "setup_grass.py"; "gscpy.py"; "setup.py"].

(** The body of [for item in self.candidates] in [__init__]; the loop
    assigns the attribute [self.export_path]. *)
Definition probe (self : t) (item : string) : M t :=
  let export_path := "/usr/lib/" +:+ item +:+ "/scripts" in
  e <- os.path_exists export_path ;;
  if e then ret (set_export_path self export_path) else ret self.

Definition __init__ (input_dir : string) (export_path pattern exclusion : option string)
    : M t :=
  let extension := ".py" in
  let candidates := ["grass70"; "grass71"; "grass72"; "grass73"; "grass74"] in
  let exclusion :=
    match exclusion with
    | None => ExclList default_exclusion
    | Some e => ExclStr e
    end in
  e <- os.path_exists input_dir ;;
  (if negb e
   then gs.fatal ("Input directory <" +:+ input_dir +:+ "> not exists")
   else ret tt) ;;;
  let self := Build extension candidates exclusion input_dir None None in
  self <- match export_path with
          | None => for_fold (Grassify.candidates self) probe self
          | Some export_path =>
              e <- os.path_exists export_path ;;
              (if negb e then os.makedirs export_path else ret tt) ;;;
              ret (set_export_path self export_path)
          end ;;
  let filter_p :=
    match pattern with
    | None => ".*" +:+ Grassify.extension self
    | Some pattern => pattern
    end in
  gs.debug ("Filter: " +:+ filter_p) 1 ;;;
  files <- __filter self filter_p ;;
  let self := set_files self files in
  files <- get_files self ;;
  empty <- new_list ;;
  if is_ files empty
  then gs.message "No files detected. Note, that must be a point for * like: pattern = str.* " ;;;
       ret self
  else ret self.

(** The body of [for i in range(len(filename_split))] in [copy]. *)
Definition copy_step (self : t) (replace : bool)
    (filename_split : list (string * string)) (i : nat) : M unit :=
  files <- get_files self ;;
  old_name <- match items files !! i with
              | Some x => ret x
              | None => raise IndexError
              end ;;
  base <- match filename_split !! i with
          | Some x => ret (fst x)
          | None => raise IndexError
          end ;;
  let base := PyStr.replace base "_" "." in
  export_path <- get_export_path self ;;
  let new_name := posixpath.join export_path base in
  e <- os.path_exists new_name ;;
  if negb e || replace then shutil.copy old_name new_name
  else
    e <- os.path_exists new_name ;;
    if negb replace && e then ret tt else ret tt.

(** The two lists the comprehensions build are used by index only; they
    are given by their items. *)
Definition copy (self : t) (replace : bool) : M Z :=
  files <- get_files self ;;
  let filename := map posixpath.basename (items files) in
  let filename_split := map posixpath.splitext filename in
  for_each (seq 0 (length filename_split))
    (copy_step self replace filename_split) ;;;
  ret 0.

Definition print_products (self : t) : M unit :=
  files <- get_files self ;;
  for_each (items files)
    (fun f => emit (Stdout ("Detected Files <" +:+ f +:+ "> " +:+ String "010" ""))).

End Grassify.

(** ** [change_dict_value] and [main] *)

(** A value of the option dictionary: a string, or [None]. *)
Definition pyval : Type := option string.

(** The body of [for key, value in dictionary.items()]. *)
Definition change_item (old_value new_value : pyval)
    (dictionary : gmap string pyval) (kv : string * pyval) : gmap string pyval :=
  if decide (snd kv = old_value) then <[fst kv := new_value]> dictionary
  else dictionary.

Definition change_dict_value (dictionary : gmap string pyval)
    (old_value new_value : pyval) : gmap string pyval :=
  fold_left (change_item old_value new_value) (map_to_list dictionary) dictionary.

(** [d[key]] *)
Definition getitem {V} (d : gmap string V) (key : string) : M V :=
  match d !! key with
  | Some v => ret v
  | None => raise (KeyError key)
  end.

Definition main (options : gmap string pyval) (flags : gmap string bool) : M Z :=
  input_dir <- getitem options "input_dir" ;;
  export_path <- getitem options "export_path" ;;
  pattern <- getitem options "pattern" ;;
  exclusion <- getitem options "exclusion" ;;
  grassify <- match input_dir with
              | Some input_dir =>
                  Grassify.__init__ input_dir export_path pattern exclusion
              | None => raise TypeError
              end ;;
  p <- getitem flags "p" ;;
  if p then Grassify.print_products grassify ;;; ret 0
  else
    r <- getitem flags "r" ;;
    Grassify.copy grassify r ;;;
    ret 0.

(** The [if __name__ == "__main__"] block, given what [gs.parser()] returned. *)
Definition script (options : gmap string pyval) (flags : gmap string bool) : M unit :=
  let options := change_dict_value options (Some "") None in
  code <- main options flags ;;
  sys_exit code.

(** ** Reference definitions the script is compared with *)

Module Spec.
Import Grassify.

(** A file name passes the filter: the pattern matches at its start, it is
    not excluded, and it ends with the extension. *)
Definition keeps (pattern : re.pattern) (excl : exclusion_t) (ext f : string)
    : bool :=
  pattern f && negb (py_in f excl) && PyStr.endswith f ext.

(** The paths of the files that pass, in the order of the walk. *)
Definition discovered (pattern : re.pattern) (excl : exclusion_t) (ext : string)
    (recs : list walk_rec) : list string :=
  flat_map (fun rec : walk_rec =>
              map (posixpath.join (fst (fst rec)))
                (List.filter (keeps pattern excl ext) (snd rec)))
    recs.

(** The paths of all files of a walk, in its order. *)
Definition all_paths (recs : list walk_rec) : list string :=
  flat_map (fun rec : walk_rec => map (posixpath.join (fst (fst rec))) (snd rec))
    recs.

(** File names as a directory listing gives them: without a separator. *)
Definition names_ok (recs : list walk_rec) : bool :=
  forallb (fun rec : walk_rec =>
             forallb (fun f => negb (PyStr.has_char posixpath.sep f)) (snd rec))
    recs.

Definition scripts_dir (item : string) : string :=
  "/usr/lib/" +:+ item +:+ "/scripts".

(** The last candidate of [l] whose script directory exists, [acc] if
    there is none. *)
Definition resolve (fs : gmap string node) (l : list string)
    (acc : option string) : option string :=
  fold_left (fun acc item =>
               if os.exists_in fs (scripts_dir item)
               then Some (scripts_dir item) else acc)
    l acc.

Definition with_export (self : t) (o : option string) : t :=
  Build (extension self) (candidates self) (exclusion self)
    (import_path self) o (files self).

Definition underscore_to_dot (c : ascii) : ascii :=
  if Ascii.eqb "_" c then "."%char else c.

(** The name [copy] gives the copy of [old_name]: the value of [base]
    after the replacement. *)
Definition base_of (old_name : string) : string :=
  PyStr.replace (fst (posixpath.splitext (posixpath.basename old_name))) "_" ".".

(** One iteration of the loop of [copy], for the file [old_name]. *)
Definition copy_one (self : t) (replace : bool) (old_name : string) : M unit :=
  export_path <- get_export_path self ;;
  let new_name := posixpath.join export_path (base_of old_name) in
  e <- os.path_exists new_name ;;
  if negb e || replace then shutil.copy old_name new_name else ret tt.

End Spec.

Module InitSpec.
Import Grassify Spec.

Definition filter_text (pattern : option string) : string :=
  match pattern with
  | None => ".*" +:+ ".py"
  | Some pattern => pattern
  end.

Definition exclusion_of (exclusion : option string) : exclusion_t :=
  match exclusion with
  | None => ExclList default_exclusion
  | Some e => ExclStr e
  end.

Definition fresh (input_dir : string) (exclusion : option string) : t :=
  Build ".py" ["grass70"; "grass71"; "grass72"; "grass73"; "grass74"]
    (exclusion_of exclusion) input_dir None None.

(** The block of [__init__] that settles [self.export_path]. *)
Definition destination (self : t) (export_path : option string) : M t :=
  match export_path with
  | None => for_fold (candidates self) probe self
  | Some export_path =>
      e <- os.path_exists export_path ;;
      (if negb e then os.makedirs export_path else ret tt) ;;;
      ret (set_export_path self export_path)
  end.

Definition log_add (w : world) (e : event) : world :=
  MkWorld (w_fs w) (w_walk w) (w_log w ++ [e]) (w_next w) (w_re w).

End InitSpec.

Module CopySpec.
Import Grassify Spec.

Definition set_fs (w : world) (fs : gmap string node) : world :=
  MkWorld fs (w_walk w) (w_log w) (w_next w) (w_re w).

(** The path [copy] writes the copy of [old_name] to. *)
Definition dest (export_path old_name : string) : string :=
  posixpath.join export_path (base_of old_name).

(** Nothing that exists is removed or turns into something else: files
    stay files, directories stay directories. *)
Definition kinds_kept (w w' : world) : Prop :=
  forall p,
    match w_fs w !! p with
    | Some (File _) => exists c, w_fs w' !! p = Some (File c)
    | Some Dir => w_fs w' !! p = Some Dir
    | None => True
    end.

(** Every entry that exists keeps its content. *)
Definition entries_kept (w w' : world) : Prop :=
  forall p n, w_fs w !! p = Some n -> w_fs w' !! p = Some n.

(** No directory is created. *)
Definition no_new_dir (w w' : world) : Prop :=
  forall p, w_fs w' !! p = Some Dir -> w_fs w !! p = Some Dir.

(** Nothing is written but what the files [l] held: the bytes of every
    file of [w'] are those the same path held in [w], or those one of the
    files [l] held in [w]. *)
Definition bytes_from (l : list string) (w w' : world) : Prop :=
  forall p c, w_fs w' !! p = Some (File c) ->
    w_fs w !! p = Some (File c) \/
    exists x, In x l /\ w_fs w !! x = Some (File c).




End CopySpec.

(** ** Concrete worlds *)

Module Examples.

Definition content_a : list Byte.byte := [Byte.x61].
Definition content_b : list Byte.byte := [Byte.x62].

Definition walk_of (top : string) (recs : list walk_rec) : string -> list walk_rec :=
  fun t => if String.eqb t top then recs else [].

(** A package with two scripts and an [__init__.py]; [/out] exists. *)
Definition pkg_recs : list walk_rec :=
  [("/pkg", [], ["i_script.py"; "__init__.py"; "i_dr_import.py"])].

Definition pkg_fs : gmap string node :=
  <["/pkg" := Dir]> (<["/pkg/i_script.py" := File content_a]>
  (<["/pkg/__init__.py" := File []]>
  (<["/pkg/i_dr_import.py" := File content_b]> (<["/out" := Dir]> ∅)))).

Definition pkg_world : world := World pkg_fs (walk_of "/pkg" pkg_recs) [] 0.

(** The same package on a machine where two of the candidate script
    directories exist. *)
Definition grass_fs : gmap string node :=
  <["/usr/lib/grass70/scripts" := Dir]>
  (<["/usr/lib/grass72/scripts" := Dir]> pkg_fs).

Definition grass_world : world := World grass_fs (walk_of "/pkg" pkg_recs) [] 0.

(** A directory without python files. *)
Definition docs_fs : gmap string node :=
  <["/docs" := Dir]> (<["/docs/README.md" := File content_a]>
  (<["/out" := Dir]> ∅)).

Definition docs_world : world :=
  World docs_fs (walk_of "/docs" [("/docs", [], ["README.md"])]) [] 0.







(** A package with names that occur, or nearly occur, in [__init__.py]. *)
Definition init_recs : list walk_rec :=
  [("/pkg", [], ["__init__.py"; "init.py"; "_.py"])].

Definition init_fs : gmap string node :=
  <["/pkg" := Dir]> (<["/pkg/__init__.py" := File []]>
  (<["/pkg/init.py" := File content_a]> (<["/pkg/_.py" := File content_b]>
  (<["/out" := Dir]> ∅)))).

Definition init_world : world := World init_fs (walk_of "/pkg" init_recs) [] 0.

(** A package on a machine whose engine knows the anchored pattern [^i_],
    which matches the names that start with [i_]. *)
Definition anchored_engine : re.engine :=
  fun p =>
    if String.eqb p "^i_" then Some (fun s => PyStr.startswith s "i_") else None.

Definition anchored_recs : list walk_rec :=
  [("/pkg", [], ["i_script.py"; "g_database.py"; "i_dr_import.py"; "i_notes.txt"])].

Definition anchored_world : world :=
  MkWorld pkg_fs (walk_of "/pkg" anchored_recs) [] 0 anchored_engine.

(** What [gs.parser()] hands to the script. *)
Definition options_for (input_dir export_path : string) : gmap string pyval :=
  <["input_dir" := Some input_dir]> (<["export_path" := Some export_path]>
  (<["pattern" := Some ""]> (<["exclusion" := Some ""]> ∅))).

Definition flags_for (p r : bool) : gmap string bool :=
  <["p" := p]> (<["r" := r]> ∅).

(** The instance [__init__] builds for the given files. *)
Definition instance (input_dir : string) (export_path : option string)
    (files : list string) : Grassify.t :=
  Grassify.Build ".py" ["grass70"; "grass71"; "grass72"; "grass73"; "grass74"]
    (Grassify.ExclList Grassify.default_exclusion) input_dir export_path
    (Some (PyList 0 files)).

End Examples.

(** ** What a pattern matches *)

Module ReSpec.
Import re.

(** [lang r s]: the whole of [s] is matched by [r]. *)
Inductive lang : regex -> string -> Prop :=
| lang_eps : lang Eps EmptyString
| lang_chr c : lang (Chr c) (String c EmptyString)
| lang_dot c : dot_matches c = true -> lang Dot (String c EmptyString)
| lang_cat r1 r2 s1 s2 :
    lang r1 s1 -> lang r2 s2 -> lang (Cat r1 r2) (s1 +:+ s2)
| lang_alt_l r1 r2 s : lang r1 s -> lang (Alt r1 r2) s
| lang_alt_r r1 r2 s : lang r2 s -> lang (Alt r1 r2) s
| lang_star_nil r : lang (Star r) EmptyString
| lang_star_cons r s1 s2 :
    lang r s1 -> lang (Star r) s2 -> lang (Star r) (s1 +:+ s2).

End ReSpec.

(** ** Relations between the world before and after a block *)

Module Frames.

(** A block maintains [R] when [R] relates every world it starts in to the
    world it ends in, however it ends. *)
Definition maintains {A} (R : world -> world -> Prop) (m : M A) : Prop :=
  forall w, R w (snd (m w)).

(** The walk oracle is the same. *)
Definition same_walk (w w' : world) : Prop := w_walk w' = w_walk w.

(** The regular expression engine is the same. *)
Definition same_engine (w w' : world) : Prop := w_re w' = w_re w.

(** What was emitted from [w] to [w'] holds no [gs.message] text. *)
Definition quiet (w w' : world) : Prop :=
  exists evs, w_log w' = w_log w ++ evs /\ forall m, ~ In (Message m) evs.

End Frames.
(** ** Further relations and worlds *)

Module More.
Import Grassify Spec CopySpec.

(** Nothing is emitted from [w] to [w']. *)
Definition same_log (w w' : world) : Prop := w_log w' = w_log w.

(** What the text [.*.py], the pattern of a run without a pattern option,
    is compiled to. *)
Definition default_pattern : re.regex :=
  re.Cat (re.Cat (re.Cat (re.Cat re.Eps (re.Star re.Dot)) re.Dot) (re.Chr "p"))
    (re.Chr "y").

(** Every entry is kept as it is, and every new entry is a directory. *)
Definition adds_dirs_only (w w' : world) : Prop :=
  (forall p n, w_fs w !! p = Some n -> w_fs w' !! p = Some n) /\
  (forall p n, w_fs w' !! p = Some n -> w_fs w !! p = Some n \/ n = Dir).

(** The line [print_products] writes for the file [f]. *)
Definition detected_line (f : string) : event :=
  Stdout ("Detected Files <" +:+ f +:+ "> " +:+ String "010" EmptyString).

Definition newline : ascii := "010"%char.

(** A block ends the process with a status in [P] only. *)
Definition exits_with {A} (P : Z -> Prop) (m : M A) : Prop :=
  forall w c w', m w = (Exit c, w') -> P c.

(** What [change_dict_value] does to one value. *)
Definition changed (old_value new_value v : pyval) : pyval :=
  if decide (v = old_value) then new_value else v.

(** A package whose walk lists a file that is gone by the time of the copy. *)
Definition gone_fs : gmap string node :=
  <["/pkg" := Dir]> (<["/pkg/a_b.py" := File Examples.content_a]>
  (<["/out" := Dir]> ∅)).

Definition gone_world : world :=
  World gone_fs
    (Examples.walk_of "/pkg" [("/pkg", [], ["a_b.py"; "c_d.py"; "e_f.py"])]) [] 0.

(** A package, and no directory [/out]. *)
Definition no_out_fs : gmap string node :=
  <["/pkg" := Dir]> (<["/pkg/a_b.py" := File Examples.content_a]> ∅).

Definition no_out_world : world :=
  World no_out_fs (Examples.walk_of "/pkg" [("/pkg", [], ["a_b.py"])]) [] 0.

(** A directory, input and destination at once, that holds a file [.py]. *)
Definition dotfile_fs : gmap string node :=
  <["/d" := Dir]> (<["/d/.py" := File Examples.content_a]> ∅).

Definition dotfile_world : world :=
  World dotfile_fs (Examples.walk_of "/d" [("/d", [], [".py"])]) [] 0.

(** A package with a file [__.py]; the file system answers for the names
    [/out/.] and [/out/..] too. *)
Definition dots_fs : gmap string node :=
  <["/" := Dir]> (<["/pkg" := Dir]> (<["/pkg/__.py" := File Examples.content_a]>
  (<["/out" := Dir]> (<["/out/." := Dir]> (<["/out/.." := Dir]> ∅))))).

Definition dots_world : world :=
  World dots_fs (Examples.walk_of "/pkg" [("/pkg", [], ["__.py"])]) [] 0.

End More.

(** * Facts about the string and path functions *)

Section StringFacts.
Import PyStr.

Lemma sapp_cons a s t : String a s +:+ t = String a (s +:+ t).
Proof. reflexivity. Qed.

Lemma sapp_nil_l s : "" +:+ s = s.
Proof. reflexivity. Qed.

Lemma sapp_nil_r s : s +:+ "" = s.
Proof. induction s as [|a s IH]; [reflexivity|]. rewrite sapp_cons, IH. reflexivity. Qed.

Lemma sapp_assoc s t u : (s +:+ t) +:+ u = s +:+ t +:+ u.
Proof. induction s as [|a s IH]; [reflexivity|]. rewrite !sapp_cons, IH. reflexivity. Qed.

Lemma slength_app s t :
  String.length (s +:+ t) = (String.length s + String.length t)%nat.
Proof. induction s as [|a s IH]; [reflexivity|]. rewrite sapp_cons. simpl. lia. Qed.

Lemma sdrop_app s t : drop (String.length s) (s +:+ t) = t.
Proof. induction s as [|a s IH]; [by destruct t|]. rewrite sapp_cons. simpl. exact IH. Qed.

Lemma stake_app s t : take (String.length s) (s +:+ t) = s.
Proof.
  induction s as [|a s IH]; [by destruct t|]. rewrite sapp_cons. simpl. by rewrite IH.
Qed.

Lemma stake_drop n s : take n s +:+ drop n s = s.
Proof.
  revert s. induction n as [|n IH]; intros [|a s]; try reflexivity.
  simpl. rewrite sapp_cons, IH. reflexivity.
Qed.

Lemma slength_drop n s : String.length (drop n s) = (String.length s - n)%nat.
Proof. revert s. induction n as [|n IH]; intros [|a s]; simpl; auto with lia. Qed.

Lemma bound_length s : bound s (len s) = String.length s.
Proof. unfold bound, len. destruct (Z.ltb_spec (Z.of_nat (String.length s)) 0); lia. Qed.

Lemma bound_nonneg s i : 0 <= i <= len s -> bound s i = Z.to_nat i.
Proof. unfold bound. intros H. destruct (Z.ltb_spec i 0); lia. Qed.

Lemma startswith_spec s p : startswith s p = true <-> exists t, s = p +:+ t.
Proof.
  revert s. induction p as [|a p IH]; intros s; simpl.
  - split; eauto.
  - destruct s as [|b s].
    + split; [discriminate|]. intros [t H]. discriminate.
    + destruct (Ascii.eqb_spec a b) as [->|Hne].
      * rewrite IH. split; intros [t H]; exists t.
        -- rewrite sapp_cons. by f_equal.
        -- rewrite sapp_cons in H. by injection H.
      * split; [discriminate|]. intros [t H]. rewrite sapp_cons in H. congruence.
Qed.

Lemma endswith_spec s suffix :
  endswith s suffix = true <-> exists stem, s = stem +:+ suffix.
Proof.
  unfold endswith. rewrite andb_true_iff, Nat.leb_le, String.eqb_eq. split.
  - intros [Hle Hd].
    exists (take (String.length s - String.length suffix) s).
    pose proof (stake_drop (String.length s - String.length suffix) s) as H.
    rewrite Hd in H. symmetry. exact H.
  - intros [stem ->]. rewrite slength_app. split; [lia|].
    replace (String.length stem + String.length suffix - String.length suffix)%nat
      with (String.length stem) by lia.
    apply sdrop_app.
Qed.

Lemma contains_spec s sub :
  contains s sub = true <-> exists a b, s = a +:+ sub +:+ b.
Proof.
  induction s as [|c s IH]; simpl.
  - rewrite orb_false_r, startswith_spec. split.
    + intros [t H]. exists "", t. exact H.
    + intros (a & b & H). destruct a; [|discriminate]. eauto.
  - rewrite orb_true_iff, IH.
    change (match sub with
            | "" => true
            | String a p' => if Ascii.eqb a c then startswith s p' else false
            end) with (startswith (String c s) sub).
    rewrite startswith_spec. split.
    + intros [[t H]|(a & b & H)].
      * exists "", t. exact H.
      * exists (String c a), b. rewrite sapp_cons. by f_equal.
    + intros (a & b & H). destruct a as [|c' a].
      * left. eauto.
      * right. rewrite sapp_cons in H. injection H as _ H. eauto.
Qed.

Lemma has_char_app c s t : has_char c (s +:+ t) = has_char c s || has_char c t.
Proof.
  induction s as [|a s IH]; [reflexivity|].
  rewrite sapp_cons. simpl. rewrite IH. by rewrite orb_assoc.
Qed.

Lemma rfind_ge s c : -1 <= rfind s c.
Proof.
  induction s as [|a s IH]; simpl; [lia|].
  destruct (Z.leb_spec 0 (rfind s c)); [lia|]. destruct (Ascii.eqb a c); lia.
Qed.

Lemma rfind_absent s c : has_char c s = false -> rfind s c = -1.
Proof.
  induction s as [|a s IH]; simpl; [done|].
  intros [Ha Hs]%orb_false_iff. rewrite (IH Hs), Ha. reflexivity.
Qed.

(** The last occurrence of [c] is the one that nothing follows. *)
Lemma rfind_last s c t :
  has_char c t = false -> rfind (s +:+ String c t) c = len s.
Proof.
  intros Ht. unfold len. induction s as [|a s IH].
  - rewrite sapp_nil_l. simpl. rewrite (rfind_absent _ _ Ht), Ascii.eqb_refl.
    reflexivity.
  - rewrite sapp_cons. simpl rfind. rewrite IH.
    destruct (Z.leb_spec 0 (Z.of_nat (String.length s))); simpl String.length; lia.
Qed.

Lemma replace_char s a b :
  replace s (String a "") (String b "")
  = map_char (fun c => if Ascii.eqb a c then b else c) s.
Proof.
  unfold replace. induction s as [|c s IH]; [reflexivity|].
  simpl. destruct (Ascii.eqb a c); simpl; rewrite IH; reflexivity.
Qed.

Lemma has_char_map_char f c s :
  (forall a, f a <> c \/ a = c) -> has_char c s = false ->
  has_char c (map_char f s) = false.
Proof.
  intros Hf. induction s as [|a s IH]; simpl; [done|].
  intros [Ha Hs]%orb_false_iff. rewrite (IH Hs), orb_false_r.
  apply Ascii.eqb_neq. destruct (Hf a) as [H| ->]; [done|].
  by rewrite Ascii.eqb_refl in Ha.
Qed.

End StringFacts.

Section PathFacts.
Import PyStr posixpath.

Lemma len_app s t : len (s +:+ t) = len s + len t.
Proof. unfold len. rewrite slength_app. lia. Qed.

Lemma len_nonneg s : 0 <= len s.
Proof. unfold len. lia. Qed.

Lemma slice_from_app s t : slice_from (s +:+ t) (len s) = t.
Proof.
  unfold slice_from. rewrite bound_nonneg.
  - unfold len. rewrite Nat2Z.id. apply sdrop_app.
  - rewrite len_app. pose proof (len_nonneg s). pose proof (len_nonneg t). lia.
Qed.

Lemma slice_to_app s t : slice_to (s +:+ t) (len s) = s.
Proof.
  unfold slice_to. rewrite bound_nonneg.
  - unfold len. rewrite Nat2Z.id. apply stake_app.
  - rewrite len_app. pose proof (len_nonneg s). pose proof (len_nonneg t). lia.
Qed.

Lemma slice_to_0 s : slice_to s 0 = "".
Proof.
  unfold slice_to. rewrite bound_nonneg by (pose proof (len_nonneg s); lia).
  by destruct s.
Qed.

(** [p[i:i+1]] is the character at position [i]. *)
Lemma slice_char s c t :
  slice (s +:+ String c t) (len s) (len s + 1) = String c "".
Proof.
  unfold slice. pose proof (len_nonneg s). pose proof (len_nonneg t).
  assert (len (s +:+ String c t) = len s + 1 + len t) as Hl.
  { rewrite len_app. unfold len at 2. simpl String.length. unfold len. lia. }
  rewrite !bound_nonneg by lia.
  replace (Z.to_nat (len s + 1) - Z.to_nat (len s))%nat with 1%nat by lia.
  unfold len. rewrite Nat2Z.id, sdrop_app. reflexivity.
Qed.

Lemma basename_plain f : has_char sep f = false -> basename f = f.
Proof.
  intros Hf. unfold basename. rewrite (rfind_absent _ _ Hf).
  change (-1 + 1) with (len ""). apply (slice_from_app "" f).
Qed.

Lemma basename_after_sep s f :
  has_char sep f = false -> basename (s +:+ String sep f) = f.
Proof.
  intros Hf. unfold basename. rewrite (rfind_last _ _ _ Hf).
  replace (s +:+ String sep f) with ((s +:+ String sep "") +:+ f)
    by (rewrite sapp_assoc; reflexivity).
  replace (len s + 1) with (len (s +:+ String sep "")) by (rewrite len_app; reflexivity).
  apply slice_from_app.
Qed.

(** [join] puts the second component after a separator, unless the first
    is empty. *)
Lemma join_shape a b :
  has_char sep b = false ->
  join a b = b \/ exists s, join a b = s +:+ String sep b.
Proof.
  intros Hb. unfold join.
  destruct (startswith b (String sep "")) eqn:Hs.
  { apply startswith_spec in Hs as [t ->]. simpl in Hb.
    unfold sep in Hb. simpl in Hb. discriminate. }
  destruct (String.eqb_spec a "") as [->|Ha]; simpl.
  { left. reflexivity. }
  destruct (endswith a (String sep "")) eqn:He.
  - apply endswith_spec in He as [stem ->]. right. exists stem.
    rewrite sapp_assoc. reflexivity.
  - right. exists a. reflexivity.
Qed.

Lemma basename_join a b : has_char sep b = false -> basename (join a b) = b.
Proof.
  intros Hb. destruct (join_shape a b Hb) as [->|[s ->]].
  - by apply basename_plain.
  - by apply basename_after_sep.
Qed.

Lemma len_cons c s : len (String c s) = 1 + len s.
Proof. unfold len. simpl String.length. lia. Qed.

Lemma splitext_loop_spec pre mid rest p d i :
  p = pre +:+ mid +:+ rest -> d = len pre + len mid -> i = len pre ->
  splitext_loop p d (String.length mid) i
  = if all_char extsep mid then (p, "") else (pre +:+ mid, rest).
Proof.
  revert pre i. induction mid as [|c mid IH]; intros pre i Hp Hd Hi.
  - simpl. by rewrite slice_to_0.
  - simpl splitext_loop. rewrite Hp at 1. rewrite Hi, sapp_cons, slice_char.
    simpl all_char. rewrite len_cons in Hd.
    destruct (Ascii.eqb_spec c extsep) as [->|Hc].
    + simpl.
      replace (pre +:+ String extsep mid)
        with ((pre +:+ String extsep "") +:+ mid) by (by rewrite sapp_assoc).
      apply (IH (pre +:+ String extsep "")).
      * rewrite Hp, sapp_assoc. reflexivity.
      * rewrite len_app, len_cons. change (len "") with 0. lia.
      * rewrite len_app, len_cons. change (len "") with 0. lia.
    + replace (String.eqb (String c "") (String extsep "")) with false.
      2:{ symmetry. apply String.eqb_neq. congruence. }
      simpl. rewrite Hp, Hd.
      replace (len pre + (1 + len mid)) with (len (pre +:+ String c mid))
        by (rewrite len_app, len_cons; lia).
      rewrite <- sapp_assoc.
      by rewrite slice_to_app, slice_from_app.
Qed.

(** The extension [splitext] sees: the text from the last dot on, unless
    only dots come before it in the name. *)
Lemma splitext_name stem e :
  has_char sep stem = false -> has_char sep e = false ->
  has_char extsep e = false ->
  splitext (stem +:+ String extsep e)
  = if all_char extsep stem then (stem +:+ String extsep e, "")
    else (stem, String extsep e).
Proof.
  intros Hs He Hd. unfold splitext.
  rewrite (rfind_absent _ sep), (rfind_last _ _ _ Hd).
  2:{ rewrite has_char_app. simpl. by rewrite Hs, He. }
  pose proof (len_nonneg stem).
  destruct (Z.ltb_spec (-1) (len stem)); [|lia].
  replace (Z.to_nat (len stem - (-1 + 1))) with (String.length stem)
    by (unfold len; lia).
  apply (splitext_loop_spec "" stem (String extsep e)); reflexivity.
Qed.

End PathFacts.

(** * Facts about the pattern matcher *)

Section ReFacts.
Import re ReSpec.

Lemma sapp_nil_inv s t : s +:+ t = EmptyString -> s = EmptyString /\ t = EmptyString.
Proof. destruct s; [by destruct t|discriminate]. Qed.

Lemma nullable_spec r : nullable r = true <-> lang r EmptyString.
Proof.
  induction r as [| |c| |r1 IH1 r2 IH2|r1 IH1 r2 IH2|r IH]; simpl.
  - split; [done|]. inversion 1.
  - split; [constructor|done].
  - split; [done|]. inversion 1.
  - split; [done|]. inversion 1.
  - rewrite andb_true_iff, IH1, IH2. split.
    + intros [H1 H2]. apply (lang_cat _ _ _ _ H1 H2).
    + intros H. inversion H; subst.
      match goal with
      | Heq : _ +:+ _ = EmptyString |- _ => apply sapp_nil_inv in Heq as [-> ->]
      end. done.
  - rewrite orb_true_iff, IH1, IH2. split.
    + intros [H|H]; [by apply lang_alt_l|by apply lang_alt_r].
    + inversion 1; subst; auto.
  - split; [constructor|done].
Qed.

(** A match of [Star r] that starts with [c] starts with a match of [r]
    that starts with [c]. *)
Lemma lang_star_cons_inv r c s :
  lang (Star r) (String c s) ->
  exists s1 s2, s = s1 +:+ s2 /\ lang r (String c s1) /\ lang (Star r) s2.
Proof.
  intros H. remember (Star r) as r' eqn:Hr. remember (String c s) as t eqn:Ht.
  revert s Ht. induction H as [| | | | | | |r0 s1 s2 H1 _ H2 IH2];
    intros u Ht; try discriminate.
  injection Hr as ->. destruct s1 as [|a s1].
  - apply IH2; done.
  - rewrite sapp_cons in Ht. injection Ht as -> <-. eauto.
Qed.

Lemma deriv_spec r c s : lang (deriv c r) s <-> lang r (String c s).
Proof.
  revert s. induction r as [| |a| |r1 IH1 r2 IH2|r1 IH1 r2 IH2|r IH];
    intros s; simpl.
  - split; inversion 1.
  - split; inversion 1.
  - destruct (Ascii.eqb_spec a c) as [->|Hne].
    + split; inversion 1; subst; constructor.
    + split; inversion 1; subst; done.
  - destruct (dot_matches c) eqn:Hd.
    + split; inversion 1; subst; by constructor.
    + split; inversion 1; subst; congruence.
  - assert (lang (Cat (deriv c r1) r2) s ->
            lang (Cat r1 r2) (String c s)) as Hfwd.
    { intros H. inversion H; subst.
      match goal with
      | H1 : lang (deriv c r1) ?s1, H2 : lang r2 ?s2 |- _ =>
          apply IH1 in H1; apply (lang_cat _ _ _ _ H1 H2)
      end. }
    assert (lang (Cat r1 r2) (String c s) ->
            lang (Cat (deriv c r1) r2) s \/
            (nullable r1 = true /\ lang (deriv c r2) s)) as Hbwd.
    { intros H. inversion H as [| | |? ? s1 s2 H1 H2 [Hr1 Hr2] Heq| | | |]; subst.
      destruct s1 as [|a s1].
      - right. split; [by apply nullable_spec|]. apply IH2.
        rewrite sapp_nil_l in Heq. by subst.
      - rewrite sapp_cons in Heq. injection Heq as -> <-. left.
        apply lang_cat; [by apply IH1|done]. }
    destruct (nullable r1) eqn:Hn.
    + split.
      * inversion 1; subst; [by apply Hfwd|].
        apply (lang_cat r1 r2 EmptyString (String c s));
          [by apply nullable_spec|by apply IH2].
      * intros H. apply Hbwd in H as [H|[_ H]];
          [by apply lang_alt_l|by apply lang_alt_r].
    + split; [exact Hfwd|]. intros H. apply Hbwd in H as [H|[? _]]; done.
  - split.
    + inversion 1; subst; [apply lang_alt_l; by apply IH1|
                           apply lang_alt_r; by apply IH2].
    + inversion 1; subst; [apply lang_alt_l; by apply IH1|
                           apply lang_alt_r; by apply IH2].
  - split.
    + intros H. inversion H; subst.
      match goal with
      | H1 : lang (deriv c r) ?s1, H2 : lang (Star r) ?s2 |- _ =>
          apply IH in H1; apply (lang_star_cons r (String c s1) s2 H1 H2)
      end.
    + intros H. apply lang_star_cons_inv in H as (s1 & s2 & -> & H1 & H2).
      apply lang_cat; [by apply IH|done].
Qed.

(** [match_] looks for a prefix of the text that the pattern matches. *)
Lemma match_spec r s :
  match_ r s = true <-> exists p t, s = p +:+ t /\ lang r p.
Proof.
  revert r. induction s as [|c s IH]; intros r; simpl.
  - rewrite orb_false_r, nullable_spec. split.
    + intros H. by exists EmptyString, EmptyString.
    + intros (p & t & Heq & H). symmetry in Heq.
      apply sapp_nil_inv in Heq as [-> _]. done.
  - rewrite orb_true_iff, nullable_spec, IH. split.
    + intros [H|(p & t & -> & H)].
      * by exists EmptyString, (String c s).
      * exists (String c p), t. split; [done|]. by apply deriv_spec.
    + intros (p & t & Heq & H). destruct p as [|a p]; [by left|].
      rewrite sapp_cons in Heq. injection Heq as <- ->. right.
      exists p, t. split; [done|]. by apply deriv_spec.
Qed.

End ReFacts.

(** * Facts about the monad *)

Section MonadFacts.
Import Frames.

Lemma bind_Ret_inv {A B} (m : M A) (k : A -> M B) w b w' :
  bind m k w = (Ret b, w') ->
  exists a w1, m w = (Ret a, w1) /\ k a w1 = (Ret b, w').
Proof.
  unfold bind. destruct (m w) as [[a|e|c] w1]; intros H; try discriminate.
  eauto.
Qed.

Lemma bind_Ret {A B} (m : M A) (k : A -> M B) w a w1 :
  m w = (Ret a, w1) -> bind m k w = k a w1.
Proof. unfold bind. by intros ->. Qed.

Lemma bind_Raise {A B} (m : M A) (k : A -> M B) w e w1 :
  m w = (Raise e, w1) -> bind m k w = (Raise e, w1).
Proof. unfold bind. by intros ->. Qed.

Lemma bind_Exit {A B} (m : M A) (k : A -> M B) w c w1 :
  m w = (Exit c, w1) -> bind m k w = (Exit c, w1).
Proof. unfold bind. by intros ->. Qed.

Context (R : world -> world -> Prop).
Context (R_refl : forall w, R w w).
Context (R_trans : forall w1 w2 w3, R w1 w2 -> R w2 w3 -> R w1 w3).

Lemma maintains_ret {A} (a : A) : maintains R (ret a).
Proof. intros w. apply R_refl. Qed.

Lemma maintains_raise {A} e : maintains R (@raise A e).
Proof. intros w. apply R_refl. Qed.

Lemma maintains_exit {A} c : maintains R (@sys_exit A c).
Proof. intros w. apply R_refl. Qed.

Lemma maintains_bind {A B} (m : M A) (k : A -> M B) :
  maintains R m -> (forall a, maintains R (k a)) -> maintains R (bind m k).
Proof.
  intros Hm Hk w. unfold bind. specialize (Hm w).
  destruct (m w) as [[a|e|c] w1]; simpl in *; [|done..].
  eapply R_trans; [exact Hm|]. apply Hk.
Qed.

Lemma maintains_for_each {A} (l : list A) body :
  (forall x, In x l -> maintains R (body x)) -> maintains R (for_each l body).
Proof.
  intros Hb. induction l as [|x l IH]; simpl.
  - apply maintains_ret.
  - apply maintains_bind; [apply Hb; by left|]. intros _.
    apply IH. intros y Hy. apply Hb. by right.
Qed.

Lemma maintains_for_fold {A S} (l : list A) (body : S -> A -> M S) s :
  (forall s x, maintains R (body s x)) -> maintains R (for_fold l body s).
Proof.
  intros Hb. revert s. induction l as [|x l IH]; intros s; simpl.
  - apply maintains_ret.
  - apply maintains_bind; [apply Hb|]. intros s'. apply IH.
Qed.

Lemma maintains_get_fs : maintains R get_fs.
Proof. intros w. apply R_refl. Qed.

Lemma maintains_path_exists p : maintains R (os.path_exists p).
Proof. intros w. apply R_refl. Qed.

Lemma maintains_path_isdir p : maintains R (os.path_isdir p).
Proof. intros w. apply R_refl. Qed.

Lemma maintains_walk p : maintains R (os.walk p).
Proof. intros w. apply R_refl. Qed.

Context (R_put : forall w fs,
            R w (MkWorld fs (w_walk w) (w_log w) (w_next w) (w_re w))).

Lemma maintains_put_fs fs : maintains R (put_fs fs).
Proof. intros w. apply R_put. Qed.

Lemma maintains_mkdir p : maintains R (os.mkdir p).
Proof.
  unfold os.mkdir. apply maintains_bind; [apply maintains_get_fs|]. intros fs.
  cbv zeta. destruct (String.eqb _ _); [apply maintains_raise|].
  destruct (os.exists_in fs _); [apply maintains_raise|].
  destruct (os.parent_check fs _); [apply maintains_raise|apply maintains_put_fs].
Qed.

Lemma maintains_ignore_exists m :
  maintains R m -> maintains R (os.ignore_exists m).
Proof.
  intros Hm w. specialize (Hm w). unfold os.ignore_exists.
  destruct (m w) as [[[]|[| | | | | |[]|]|] w']; exact Hm.
Qed.

Lemma maintains_makedirs_body recur name :
  (forall n, maintains R (recur n)) ->
  maintains R (os.makedirs_body recur name).
Proof.
  intros Hr. unfold os.makedirs_body.
  destruct (posixpath.split name) as [head tail].
  destruct (if String.eqb tail "" then posixpath.split head else (head, tail))
    as [head' tail'].
  apply maintains_bind; [apply maintains_path_exists|]. intros e.
  destruct (negb (String.eqb head' "") && negb (String.eqb tail' "") && negb e);
    [|apply maintains_mkdir].
  apply maintains_bind; [apply maintains_ignore_exists, Hr|].
  intros _. destruct (String.eqb tail' "."); [apply maintains_ret|].
  apply maintains_mkdir.
Qed.

Lemma maintains_makedirs_go fuel name : maintains R (os.makedirs_go fuel name).
Proof.
  revert name. induction fuel as [|fuel IH]; intros name.
  - apply maintains_ret.
  - apply maintains_makedirs_body, IH.
Qed.

Lemma maintains_makedirs name : maintains R (os.makedirs name).
Proof. apply maintains_makedirs_go. Qed.

Lemma maintains_copyfile src dst : maintains R (shutil.copyfile src dst).
Proof.
  unfold shutil.copyfile. apply maintains_bind; [apply maintains_get_fs|].
  intros fs. destruct (String.eqb src dst && os.exists_in fs src);
    [apply maintains_raise|].
  destruct (fs !! src) as [[content|]|]; try apply maintains_raise.
  destruct (fs !! dst) as [[|]|]; try apply maintains_raise;
    (destruct (os.parent_check fs dst);
     [apply maintains_raise|apply maintains_put_fs]).
Qed.

Lemma maintains_shutil_copy src dst : maintains R (shutil.copy src dst).
Proof.
  unfold shutil.copy. apply maintains_bind; [apply maintains_path_isdir|].
  intros d. apply maintains_copyfile.
Qed.

End MonadFacts.

(** * Facts about [__filter] and [__init__] *)

Section FilterFacts.
Import Grassify Spec.

Lemma filter_file_fold self root l files :
  fold_left (filter_file self root) l files
  = PyList (oid files)
      (items files ++
       map (posixpath.join root)
         (List.filter (fun f => negb (py_in f (exclusion self)) &&
                                PyStr.endswith f (extension self)) l)).
Proof.
  revert files. induction l as [|f l IH]; intros files; simpl.
  - rewrite app_nil_r. by destruct files.
  - rewrite IH. unfold filter_file.
    destruct (py_in f (exclusion self)); simpl; [done|].
    destruct (PyStr.endswith f (extension self)); simpl; [|done].
    by rewrite <- app_assoc.
Qed.

Lemma filter_twice {A} (p q : A -> bool) l :
  List.filter q (List.filter p l) = List.filter (fun x => p x && q x) l.
Proof.
  induction l as [|x l IH]; simpl; [done|].
  destruct (p x); simpl; [|done]. destruct (q x); by rewrite IH.
Qed.

Lemma filter_rec_spec self pattern files rec :
  filter_rec self pattern files rec
  = PyList (oid files)
      (items files ++
       map (posixpath.join (fst (fst rec)))
         (List.filter (keeps pattern (exclusion self) (extension self)) (snd rec))).
Proof.
  unfold filter_rec. destruct (snd rec) as [|f l] eqn:Hl.
  - simpl. rewrite app_nil_r. by destruct files.
  - rewrite filter_file_fold, filter_twice. do 3 f_equal.
    apply filter_ext. intros x. unfold keeps. by rewrite andb_assoc.
Qed.

Lemma filter_recs_fold self pattern recs files :
  fold_left (filter_rec self pattern) recs files
  = PyList (oid files)
      (items files ++
       discovered pattern (exclusion self) (extension self) recs).
Proof.
  revert files. induction recs as [|rec recs IH]; intros files; simpl.
  - rewrite app_nil_r. by destruct files.
  - rewrite IH, filter_rec_spec. simpl. by rewrite <- app_assoc.
Qed.

(** What [__filter] evaluates to. *)
Lemma filter_eval self filter_p w :
  __filter self filter_p w
  = match re.compiled (w_re w) filter_p with
    | None => (Raise re_error, w)
    | Some pattern =>
        (Ret (PyList (w_next w)
                (discovered pattern (exclusion self) (extension self)
                   (w_walk w (import_path self)))),
         MkWorld (w_fs w) (w_walk w) (w_log w) (S (w_next w)) (w_re w))
    end.
Proof.
  unfold __filter, bind, re_compile.
  destruct (re.compiled (w_re w) filter_p) as [pattern|]; simpl; [|done].
  by rewrite filter_recs_fold.
Qed.

(** A text of the fragment is compiled without the engine. *)
Lemma compiled_fragment e p r :
  re.compile p = Some r -> re.compiled e p = Some (re.match_ r).
Proof. unfold re.compiled. by intros ->. Qed.

(** A text that starts with a repetition operator is not compiled. *)
Lemma compiled_nothing_to_repeat e q rest :
  re.is_quantifier q = true -> re.compiled e (String q rest) = None.
Proof.
  intros Hq. unfold re.compiled, re.compile, re.malformed. simpl.
  replace (Ascii.eqb q "\") with false.
  - by rewrite Hq.
  - unfold re.is_quantifier in Hq. symmetry. apply Ascii.eqb_neq. intros ->.
    discriminate.
Qed.

Lemma discovered_sublist pattern excl ext recs :
  sublist (discovered pattern excl ext recs) (all_paths recs).
Proof.
  induction recs as [|rec recs IH]; simpl; [constructor|].
  apply sublist_app; [|exact IH].
  induction (snd rec) as [|f l IHl]; simpl; [constructor|].
  destruct (keeps pattern excl ext f); simpl; by constructor.
Qed.

Lemma in_discovered pattern excl ext recs p :
  In p (discovered pattern excl ext recs) <->
  exists rec f, In rec recs /\ In f (snd rec) /\
                keeps pattern excl ext f = true /\
                p = posixpath.join (fst (fst rec)) f.
Proof.
  unfold discovered. rewrite in_flat_map. split.
  - intros (rec & Hrec & Hp). apply in_map_iff in Hp as (f & <- & Hf).
    apply filter_In in Hf as [Hf Hk]. eauto 10.
  - intros (rec & f & Hrec & Hf & Hk & ->). exists rec. split; [done|].
    apply in_map. apply filter_In. done.
Qed.

Lemma names_ok_in recs rec f :
  names_ok recs = true -> In rec recs -> In f (snd rec) ->
  PyStr.has_char posixpath.sep f = false.
Proof.
  unfold names_ok. rewrite forallb_forall. intros H Hrec Hf.
  specialize (H rec Hrec). rewrite forallb_forall in H.
  specialize (H f Hf). by apply negb_true_iff.
Qed.

Lemma probe_loop l self w :
  for_fold l probe self w
  = (Ret (with_export self (resolve (w_fs w) l (export_path self))), w).
Proof.
  revert self. induction l as [|item l IH]; intros self; simpl.
  - by destruct self.
  - unfold bind, probe at 1, bind. simpl.
    fold (scripts_dir item).
    destruct (os.exists_in (w_fs w) (scripts_dir item)); simpl.
    + rewrite IH. reflexivity.
    + rewrite IH. reflexivity.
Qed.

End FilterFacts.

Section InitFacts.
Import Grassify Spec InitSpec.

Lemma destination_shape self export_path w self1 w1 :
  destination self export_path w = (Ret self1, w1) ->
  exists o, self1 = with_export self o.
Proof.
  destruct export_path as [p|]; simpl.
  - intros H. apply bind_Ret_inv in H as (e & w2 & _ & H).
    apply bind_Ret_inv in H as (u & w3 & _ & H).
    injection H as <- _. by exists (Some p).
  - rewrite probe_loop. intros H. injection H as <- _. eauto.
Qed.

(** What [__init__] evaluates to, in terms of its destination block. *)
Lemma init_eval input_dir export_path pattern exclusion w :
  __init__ input_dir export_path pattern exclusion w
  = if negb (os.exists_in (w_fs w) input_dir)
    then (Exit 1,
          log_add w (Fatal ("Input directory <" +:+ input_dir +:+ "> not exists")))
    else
      match destination (fresh input_dir exclusion) export_path w with
      | (Ret self, w1) =>
          let w2 := log_add w1 (Debug ("Filter: " +:+ filter_text pattern) 1) in
          match re.compiled (w_re w1) (filter_text pattern) with
          | None => (Raise re_error, w2)
          | Some r =>
              (Ret (set_files self
                      (PyList (w_next w1)
                         (discovered r (exclusion_of exclusion) ".py"
                            (w_walk w1 input_dir)))),
               MkWorld (w_fs w1) (w_walk w1) (w_log w2)
                 (S (S (w_next w1))) (w_re w1))
          end
      | (Raise e, w1) => (Raise e, w1)
      | (Exit c, w1) => (Exit c, w1)
      end.
Proof.
  unfold __init__.
  rewrite (bind_Ret (os.path_exists input_dir) _ w
             (os.exists_in (w_fs w) input_dir) w) by reflexivity.
  destruct (os.exists_in (w_fs w) input_dir); simpl negb; cbv iota.
  2:{ by rewrite (bind_Exit _ _ w 1
                    (log_add w (Fatal ("Input directory <" +:+ input_dir
                                       +:+ "> not exists")))). }
  rewrite (bind_Ret (ret tt) _ w tt w) by reflexivity.
  lazymatch goal with
  | |- bind _ ?k w = _ =>
      change (bind (destination (fresh input_dir exclusion) export_path) k w
              = match destination (fresh input_dir exclusion) export_path w with
                | (Ret self, w1) =>
                    let w2 := log_add w1 (Debug ("Filter: " +:+ filter_text pattern) 1) in
                    match re.compiled (w_re w1) (filter_text pattern) with
                    | None => (Raise re_error, w2)
                    | Some r =>
                        (Ret (set_files self
                                (PyList (w_next w1)
                                   (discovered r (exclusion_of exclusion) ".py"
                                      (w_walk w1 input_dir)))),
                         MkWorld (w_fs w1) (w_walk w1) (w_log w2)
                           (S (S (w_next w1))) (w_re w1))
                    end
                | (Raise e, w1) => (Raise e, w1)
                | (Exit c, w1) => (Exit c, w1)
                end)
  end.
  destruct (destination (fresh input_dir exclusion) export_path w)
    as [[self|e|c] w1] eqn:Hd.
  2:{ by rewrite (bind_Raise _ _ _ _ _ Hd). }
  2:{ by rewrite (bind_Exit _ _ _ _ _ Hd). }
  rewrite (bind_Ret _ _ _ _ _ Hd).
  apply destination_shape in Hd as [o ->].
  change (match pattern with
          | Some pattern0 => pattern0
          | None => ".*" +:+ extension (with_export (fresh input_dir exclusion) o)
          end) with (filter_text pattern).
  rewrite (bind_Ret (gs.debug _ 1) _ w1 tt
             (log_add w1 (Debug ("Filter: " +:+ filter_text pattern) 1)))
    by reflexivity.
  unfold bind at 1. rewrite filter_eval. cbv zeta. cbn [w_re log_add].
  destruct (re.compiled (w_re w1) (filter_text pattern)) as [r|]; [|reflexivity].
  unfold bind, get_files, set_files, ret, new_list, is_. simpl.
  replace (w_next w1 =? S (w_next w1))%nat with false
    by (symmetry; apply Nat.eqb_neq; lia).
  reflexivity.
Qed.

End InitFacts.

(** * Facts about [copy] *)

Section CopyFacts.
Import Grassify Spec CopySpec.

Lemma for_each_cons {A} (x : A) l body w :
  for_each (x :: l) body w
  = match body x w with
    | (Ret _, w1) => for_each l body w1
    | (Raise e, w1) => (Raise e, w1)
    | (Exit c, w1) => (Exit c, w1)
    end.
Proof. reflexivity. Qed.

Lemma for_each_app {A} (l1 l2 : list A) body w :
  for_each (l1 ++ l2) body w
  = match for_each l1 body w with
    | (Ret _, w1) => for_each l2 body w1
    | (Raise e, w1) => (Raise e, w1)
    | (Exit c, w1) => (Exit c, w1)
    end.
Proof.
  revert w. induction l1 as [|x l1 IH]; intros w; [reflexivity|].
  simpl app. rewrite !for_each_cons.
  destruct (body x w) as [[[]|e|c] w1]; [apply IH|done..].
Qed.

Lemma for_each_app_Ret {A} (l1 l2 : list A) body w w' :
  for_each (l1 ++ l2) body w = (Ret tt, w') ->
  exists w1, for_each l1 body w = (Ret tt, w1) /\
             for_each l2 body w1 = (Ret tt, w').
Proof.
  revert w. induction l1 as [|x l1 IH]; intros w; simpl app.
  - intros H. exists w. done.
  - rewrite !for_each_cons. destruct (body x w) as [[[]|e|c] w1]; try done.
    apply IH.
Qed.

(** The loop over indices visits the files one after the other. *)
Lemma copy_loop_indices self replace files pre suf w :
  Grassify.files self = Some files -> items files = pre ++ suf ->
  for_each (seq (length pre) (length suf))
    (copy_step self replace
       (map posixpath.splitext (map posixpath.basename (items files)))) w
  = for_each suf (copy_one self replace) w.
Proof.
  intros Hf. revert pre w. induction suf as [|old suf IH]; intros pre w Hl.
  - reflexivity.
  - simpl seq. rewrite !for_each_cons.
    assert (copy_step self replace
              (map posixpath.splitext (map posixpath.basename (items files)))
              (length pre) w
            = copy_one self replace old w) as ->.
    { unfold copy_step, copy_one, get_files. rewrite Hf.
      rewrite (bind_Ret (ret files) _ w files w) by reflexivity.
      rewrite !list_lookup_fmap, Hl.
      rewrite (list_lookup_middle pre suf old (length pre) eq_refl). simpl.
      rewrite (bind_Ret (ret old) _ w old w) by reflexivity.
      rewrite (bind_Ret (ret _) _ w _ w) by reflexivity.
      unfold bind, get_export_path. destruct (export_path self); simpl; [|done].
      fold (base_of old).
      destruct (os.exists_in (w_fs w) _) eqn:He, replace; simpl;
        rewrite ?He; reflexivity. }
    destruct (copy_one self replace old w) as [[[]|e|c] w1]; try done.
    specialize (IH (pre ++ [old]) w1). rewrite length_app in IH. simpl in IH.
    replace (length pre + 1)%nat with (S (length pre)) in IH by lia.
    apply IH. by rewrite <- app_assoc.
Qed.

(** [copy] runs [copy_one] on the discovered files, in order. *)
Lemma copy_eval self replace w :
  copy self replace w
  = match Grassify.files self with
    | None => (Raise (AttributeError "files"), w)
    | Some files =>
        match for_each (items files) (copy_one self replace) w with
        | (Ret _, w1) => (Ret 0, w1)
        | (Raise e, w1) => (Raise e, w1)
        | (Exit c, w1) => (Exit c, w1)
        end
    end.
Proof.
  unfold copy, get_files. destruct (Grassify.files self) as [files|] eqn:Hf;
    [|reflexivity].
  rewrite (bind_Ret (ret files) _ w files w) by reflexivity.
  unfold bind at 1. rewrite !length_map.
  pose proof (copy_loop_indices self replace files [] (items files) w Hf eq_refl)
    as H.
  change (length (@nil string)) with 0%nat in H. rewrite H.
  by destruct (for_each (items files) (copy_one self replace) w) as [[[]|e|c] w1].
Qed.

Lemma copy_one_eval self replace old w :
  copy_one self replace old w
  = match export_path self with
    | None => (Raise (AttributeError "export_path"), w)
    | Some ep =>
        let d := dest ep old in
        if os.exists_in (w_fs w) d && negb replace then (Ret tt, w)
        else shutil.copyfile old
               (if os.isdir_in (w_fs w) d
                then posixpath.join d (posixpath.basename old) else d) w
    end.
Proof.
  unfold copy_one, get_export_path. destruct (export_path self) as [ep|];
    [|reflexivity].
  rewrite (bind_Ret (ret ep) _ w ep w) by reflexivity.
  rewrite (bind_Ret (os.path_exists _) _ w
             (os.exists_in (w_fs w) (dest ep old)) w) by reflexivity.
  cbv zeta.
  destruct (os.exists_in (w_fs w) (dest ep old)), replace; reflexivity.
Qed.

Lemma copyfile_cases src dst w :
  (exists e, shutil.copyfile src dst w = (Raise e, w)) \/
  (exists c, w_fs w !! src = Some (File c) /\ w_fs w !! dst <> Some Dir /\
             src <> dst /\
             shutil.copyfile src dst w
             = (Ret tt, set_fs w (<[dst := File c]> (w_fs w)))).
Proof.
  unfold shutil.copyfile.
  rewrite (bind_Ret get_fs _ w (w_fs w) w) by reflexivity.
  unfold os.exists_in.
  destruct (w_fs w !! src) as [[c|]|] eqn:Hs.
  - destruct (String.eqb_spec src dst) as [->|Hne]; simpl; [left; eauto|].
    destruct (w_fs w !! dst) as [[c'|]|] eqn:Hd; [| left; eauto |];
      (destruct (os.parent_check (w_fs w) dst); [left; eauto|]);
      right; exists c; done.
  - destruct (String.eqb src dst); simpl; left; eauto.
  - rewrite andb_false_r. left; eauto.
Qed.

End CopyFacts.

Section CopyEffects.
Import Grassify Spec CopySpec Frames.

(** One iteration either leaves the world as it is, or writes one file. *)
Lemma copy_one_effect self replace old w r w' :
  copy_one self replace old w = (r, w') ->
  (w' = w /\
   (r = Ret tt -> exists ep, export_path self = Some ep /\ replace = false /\
                             os.exists_in (w_fs w) (dest ep old) = true)) \/
  (r = Ret tt /\
   exists ep c t,
     export_path self = Some ep /\
     t = (if os.isdir_in (w_fs w) (dest ep old)
          then posixpath.join (dest ep old) (posixpath.basename old)
          else dest ep old) /\
     w_fs w !! old = Some (File c) /\ w_fs w !! t <> Some Dir /\ old <> t /\
     (replace = false -> w_fs w !! dest ep old = None) /\
     w' = set_fs w (<[t := File c]> (w_fs w))).
Proof.
  rewrite copy_one_eval. destruct (export_path self) as [ep|].
  2:{ intros H. injection H as <- <-. left. split; [done|]. discriminate. }
  cbv zeta. destruct (os.exists_in (w_fs w) (dest ep old)) eqn:He; simpl.
  - destruct replace; simpl.
    + set (t := if os.isdir_in _ _ then _ else _).
      destruct (copyfile_cases old t w) as [[e ->]|(c & Hs & Ht & Hne & ->)];
        intros H; injection H as <- <-.
      * left. split; [done|]. discriminate.
      * right. split; [done|]. exists ep, c, t. repeat split; try done.
    + intros H. injection H as <- <-. left. split; [done|]. eauto.
  - assert (w_fs w !! dest ep old = None) as Hn.
    { unfold os.exists_in in He. by destruct (w_fs w !! dest ep old). }
    set (t := if os.isdir_in _ _ then _ else _).
    destruct (copyfile_cases old t w) as [[e ->]|(c & Hs & Ht & Hne & ->)];
      intros H; injection H as <- <-.
    + left. split; [done|]. discriminate.
    + right. split; [done|]. exists ep, c, t. repeat split; try done.
Qed.

Lemma copy_one_kinds self replace old :
  maintains kinds_kept (copy_one self replace old).
Proof.
  intros w. destruct (copy_one self replace old w) as [r w'] eqn:H.
  apply copy_one_effect in H
      as [[-> _]|(_ & ep & c & t & _ & _ & Hs & Ht & _ & _ & ->)];
    unfold kinds_kept; simpl; intros p.
  - destruct (w_fs w !! p) as [[c|]|]; eauto.
  - destruct (decide (t = p)) as [<-|Hne].
    + rewrite lookup_insert_eq. destruct (w_fs w !! t) as [[c'|]|]; eauto. done.
    + rewrite lookup_insert_ne by done.
      destruct (w_fs w !! p) as [[c'|]|]; eauto.
Qed.


Lemma copy_one_entries self old :
  maintains entries_kept (copy_one self false old).
Proof.
  intros w. destruct (copy_one self false old w) as [r w'] eqn:H.
  apply copy_one_effect in H
      as [[-> _]|(_ & ep & c & t & _ & Ht & Hs & _ & _ & Hn & ->)];
    unfold entries_kept; simpl; intros p n Hp; [done|].
  specialize (Hn eq_refl).
  assert (t = dest ep old) as ->.
  { rewrite Ht. unfold os.isdir_in. by rewrite Hn. }
  rewrite lookup_insert_ne; [done|]. intros <-. congruence.
Qed.


Lemma kinds_kept_refl w : kinds_kept w w.
Proof. intros p. destruct (w_fs w !! p) as [[c|]|]; eauto. Qed.

Lemma kinds_kept_trans w1 w2 w3 :
  kinds_kept w1 w2 -> kinds_kept w2 w3 -> kinds_kept w1 w3.
Proof.
  intros H1 H2 p. specialize (H1 p). specialize (H2 p).
  destruct (w_fs w1 !! p) as [[c|]|]; [| |done].
  - destruct H1 as [c' H1]. by rewrite H1 in H2.
  - by rewrite H1 in H2.
Qed.

Lemma entries_kept_refl w : entries_kept w w.
Proof. by intros p n. Qed.

Lemma entries_kept_trans w1 w2 w3 :
  entries_kept w1 w2 -> entries_kept w2 w3 -> entries_kept w1 w3.
Proof. intros H1 H2 p n Hp. by apply H2, H1. Qed.

Lemma no_new_dir_refl w : no_new_dir w w.
Proof. by intros p. Qed.

Lemma no_new_dir_trans w1 w2 w3 :
  no_new_dir w1 w2 -> no_new_dir w2 w3 -> no_new_dir w1 w3.
Proof. intros H1 H2 p Hp. by apply H1, H2. Qed.



Lemma bytes_from_mono l l' w w' :
  (forall x, In x l -> In x l') -> bytes_from l w w' -> bytes_from l' w w'.
Proof.
  intros Hsub H p c Hp. apply H in Hp as [Hp|(x & Hx & Hp)]; [by left|].
  right. exists x. auto.
Qed.

(** [copy] ends in the world its loop ends in. *)
Lemma copy_world self replace w files :
  Grassify.files self = Some files ->
  snd (copy self replace w)
  = snd (for_each (items files) (copy_one self replace) w).
Proof.
  intros Hf. rewrite copy_eval, Hf.
  by destruct (for_each _ _ w) as [[[]|e|c] w1].
Qed.

Lemma maintains_copy (R : world -> world -> Prop) self replace :
  (forall w, R w w) -> (forall w1 w2 w3, R w1 w2 -> R w2 w3 -> R w1 w3) ->
  (forall files old, Grassify.files self = Some files -> In old (items files) ->
                     maintains R (copy_one self replace old)) ->
  maintains R (copy self replace).
Proof.
  intros Hrefl Htrans Hone w.
  destruct (Grassify.files self) as [files|] eqn:Hf.
  - rewrite (copy_world _ _ _ files Hf).
    apply maintains_for_each; eauto.
  - rewrite copy_eval, Hf. apply Hrefl.
Qed.

End CopyEffects.

Section CopyRuns.
Import Grassify Spec CopySpec Frames.

Lemma exists_in_kept w w' p :
  entries_kept w w' -> os.exists_in (w_fs w) p = true ->
  os.exists_in (w_fs w') p = true.
Proof.
  unfold os.exists_in. intros H. destruct (w_fs w !! p) as [n|] eqn:Hp; [|done].
  by rewrite (H p n Hp).
Qed.


(** Without the replace flag, a file whose destination exists is skipped. *)
Lemma copy_one_skip self ep old w :
  export_path self = Some ep ->
  os.exists_in (w_fs w) (dest ep old) = true ->
  copy_one self false old w = (Ret tt, w).
Proof. intros Hep He. rewrite copy_one_eval, Hep. cbv zeta. by rewrite He. Qed.

(** Without the replace flag, an iteration that returns leaves the
    destination in place. *)
Lemma copy_one_false_dest self old w w' :
  copy_one self false old w = (Ret tt, w') ->
  exists ep, export_path self = Some ep /\
             os.exists_in (w_fs w') (dest ep old) = true.
Proof.
  intros H. apply copy_one_effect in H
      as [[-> H]|(_ & ep & c & t & Hep & Ht & _ & _ & _ & Hn & ->)].
  - destruct (H eq_refl) as (ep & Hep & _ & He). eauto.
  - exists ep. split; [done|]. specialize (Hn eq_refl).
    assert (t = dest ep old) as ->.
    { rewrite Ht. unfold os.isdir_in. by rewrite Hn. }
    unfold os.exists_in. simpl. by rewrite lookup_insert_eq.
Qed.

Lemma copy_one_not_Ret self replace old w r w' :
  copy_one self replace old w = (r, w') -> r <> Ret tt -> w' = w.
Proof.
  intros H Hr. by apply copy_one_effect in H as [[-> _]|[-> _]].
Qed.

Lemma copy_loop_idem self l w :
  for_each l (copy_one self false) (snd (for_each l (copy_one self false) w))
  = for_each l (copy_one self false) w.
Proof.
  revert w. induction l as [|old l IH]; intros w; [reflexivity|].
  rewrite (for_each_cons old l _ w).
  destruct (copy_one self false old w) as [r w0] eqn:H0.
  destruct r as [[]|e|c].
  - destruct (copy_one_false_dest _ _ _ _ H0) as (ep & Hep & He).
    rewrite for_each_cons.
    rewrite (copy_one_skip self ep old _ Hep).
    + apply IH.
    + eapply exists_in_kept; [|exact He].
      apply (maintains_for_each entries_kept entries_kept_refl entries_kept_trans).
      intros x _. apply copy_one_entries.
  - cbn [snd].
    assert (w0 = w) as -> by (eapply copy_one_not_Ret; [exact H0|done]).
    by rewrite for_each_cons, H0.
  - cbn [snd].
    assert (w0 = w) as -> by (eapply copy_one_not_Ret; [exact H0|done]).
    by rewrite for_each_cons, H0.
Qed.








End CopyRuns.

(** * The properties of the script *)

Section WalkInvariance.
Import Grassify Spec InitSpec Frames.

Lemma destination_same_walk self export_path :
  maintains same_walk (destination self export_path).
Proof.
  assert (forall w, same_walk w w) as Hrefl by done.
  assert (forall w1 w2 w3, same_walk w1 w2 -> same_walk w2 w3 -> same_walk w1 w3)
    as Htrans by (unfold same_walk; congruence).
  destruct export_path as [p|]; simpl.
  - apply maintains_bind; [done|apply maintains_path_exists; done|]. intros e.
    apply maintains_bind; [done| |intros _; by apply maintains_ret].
    destruct (negb e); [|by apply maintains_ret].
    apply maintains_makedirs; done.
  - intros w. by rewrite probe_loop.
Qed.

Lemma destination_same_engine self export_path :
  maintains same_engine (destination self export_path).
Proof.
  assert (forall w, same_engine w w) as Hrefl by done.
  assert (forall w1 w2 w3, same_engine w1 w2 -> same_engine w2 w3 -> same_engine w1 w3)
    as Htrans by (unfold same_engine; congruence).
  destruct export_path as [p|]; simpl.
  - apply maintains_bind; [done|apply maintains_path_exists; done|]. intros e.
    apply maintains_bind; [done| |intros _; by apply maintains_ret].
    destruct (negb e); [|by apply maintains_ret].
    apply maintains_makedirs; done.
  - intros w. by rewrite probe_loop.
Qed.

(** What an instance that [__init__] returned looks like. *)
Lemma init_Ret_inv input_dir export_path pattern exclusion w self w' :
  __init__ input_dir export_path pattern exclusion w = (Ret self, w') ->
  exists r o l,
    re.compiled (w_re w) (filter_text pattern) = Some r /\
    self = Build ".py" ["grass70"; "grass71"; "grass72"; "grass73"; "grass74"]
             (exclusion_of exclusion) input_dir o (Some l) /\
    items l = discovered r (exclusion_of exclusion) ".py" (w_walk w input_dir).
Proof.
  rewrite init_eval. destruct (negb _); [done|].
  pose proof (destination_same_walk (fresh input_dir exclusion) export_path w)
    as Hwalk.
  pose proof (destination_same_engine (fresh input_dir exclusion) export_path w)
    as Hre.
  destruct (destination (fresh input_dir exclusion) export_path w)
    as [[self1|e|c] w1] eqn:Hd; [|done..].
  unfold same_engine in Hre. simpl in Hre. rewrite Hre.
  cbv zeta. destruct (re.compiled (w_re w) (filter_text pattern)) as [r|] eqn:Hc;
    [|done].
  intros H. injection H as <- <-.
  apply destination_shape in Hd as [o ->].
  unfold same_walk in Hwalk. simpl in Hwalk. rewrite Hwalk.
  by exists r, o, (PyList (w_next w1)
                     (discovered r (exclusion_of exclusion) ".py"
                        (w_walk w input_dir))).
Qed.

End WalkInvariance.

Section Messages.
Import Grassify Spec InitSpec Frames.

Lemma quiet_refl w : quiet w w.
Proof. exists []. split; [by rewrite app_nil_r|]. intros m []. Qed.

Lemma quiet_trans w1 w2 w3 : quiet w1 w2 -> quiet w2 w3 -> quiet w1 w3.
Proof.
  intros (e1 & H1 & N1) (e2 & H2 & N2). exists (e1 ++ e2).
  split; [by rewrite H2, H1, app_assoc|].
  intros m [H|H]%in_app_or; [by apply (N1 m)|by apply (N2 m)].
Qed.

Lemma quiet_add w e : (forall m, e <> Message m) -> quiet w (log_add w e).
Proof.
  intros He. exists [e]. split; [done|]. intros m [H|[]]. by apply (He m).
Qed.

Lemma destination_quiet self export_path :
  maintains quiet (destination self export_path).
Proof.
  destruct export_path as [p|]; simpl.
  - apply maintains_bind; [apply quiet_trans|apply maintains_path_exists, quiet_refl|].
    intros e.
    apply maintains_bind; [apply quiet_trans| |intros _; apply maintains_ret, quiet_refl].
    destruct (negb e); [|apply maintains_ret, quiet_refl].
    apply maintains_makedirs; [apply quiet_refl|apply quiet_trans|].
    intros w fs. exists []. split; [simpl; by rewrite app_nil_r|]. intros m [].
  - intros w. rewrite probe_loop. apply quiet_refl.
Qed.

Lemma init_quiet input_dir export_path pattern exclusion :
  maintains quiet (__init__ input_dir export_path pattern exclusion).
Proof.
  intros w. rewrite init_eval. destruct (negb _).
  { by apply quiet_add. }
  pose proof (destination_quiet (fresh input_dir exclusion) export_path w) as Hq.
  destruct (destination (fresh input_dir exclusion) export_path w)
    as [[self|e|c] w1]; simpl in Hq; [|done..].
  cbv zeta. eapply quiet_trans; [exact Hq|].
  destruct (re.compiled _ (filter_text pattern)); by apply quiet_add.
Qed.

End Messages.

Section Naming.
Import PyStr posixpath Grassify Spec InitSpec CopySpec.

Lemma all_dots_no_underscore stem t :
  all_char extsep stem = true ->
  map_char underscore_to_dot t = t ->
  map_char underscore_to_dot (stem +:+ t) = stem +:+ t.
Proof.
  intros Hs Ht. induction stem as [|a stem IH]; [done|].
  simpl in Hs. apply andb_true_iff in Hs as [Ha Hs].
  apply Ascii.eqb_eq in Ha as ->. rewrite sapp_cons. simpl. by rewrite IH.
Qed.

(** The name of the copy of a discovered file [dir/stem.py]. *)
Lemma base_of_discovered dir stem :
  has_char sep stem = false ->
  base_of (join dir (stem +:+ ".py"))
  = if all_char extsep stem then stem +:+ ".py"
    else map_char underscore_to_dot stem.
Proof.
  intros Hs. unfold base_of.
  rewrite basename_join by (rewrite has_char_app, Hs; reflexivity).
  pose proof (splitext_name stem "py" Hs eq_refl eq_refl) as Hsplit.
  change (String extsep "py") with ".py" in Hsplit. rewrite Hsplit.
  destruct (all_char extsep stem) eqn:Hd; simpl.
  - rewrite (replace_char _ "_" "."). by apply all_dots_no_underscore.
  - apply (replace_char _ "_" ".").
Qed.

End Naming.

Section Claims.
Import PyStr posixpath ReSpec Grassify Spec InitSpec CopySpec Frames Examples.

(** C1. For every file [__init__] discovered, [copy] names the copy after
    the file's basename with the extension [splitext] sees split off and
    every underscore replaced by a dot: the discovered path is
    [join dir f], its basename is [f], [f] is [root ++ ext] with
    [(root, ext) = splitext f], and the copy is written to
    [join export_path base] with [base] the image of [root] under the
    replacement. The extension is [.py], except for a name made of dots
    only before [.py], which has none. In particular [i_dr_import.py]
    yields [i.dr.import]. *)
Theorem copy_destination_name input_dir export_path pattern exclusion w self w' :
  __init__ input_dir export_path pattern exclusion w = (Ret self, w') ->
  names_ok (w_walk w input_dir) = true ->
  exists files,
    Grassify.files self = Some files /\
    (forall replace w0,
        copy self replace w0
        = (for_each (items files) (copy_one self replace) ;;; ret 0) w0) /\
    (forall old, In old (items files) ->
       exists dir f root ext,
         old = join dir f /\ basename old = f /\
         splitext f = (root, ext) /\ f = root +:+ ext /\
         (ext = ".py" \/
          ext = EmptyString /\
          exists dots, f = dots +:+ ".py" /\ all_char extsep dots = true) /\
         base_of old = map_char underscore_to_dot root) /\
    base_of "/home/user/package/i_import/i_dr_import.py" = "i.dr.import".
Proof.
  intros Hinit Hok.
  apply init_Ret_inv in Hinit as (r & o & l & _ & -> & Hl).
  exists l. split; [reflexivity|]. split; [|split; [|reflexivity]].
  { intros replace w0. rewrite copy_eval. simpl. unfold bind.
    by destruct (for_each _ _ w0) as [[[]|e|c] w1]. }
  intros old Hold. rewrite Hl in Hold.
  apply in_discovered in Hold as (rec & f & Hrec & Hf & Hk & ->).
  pose proof (names_ok_in _ _ _ Hok Hrec Hf) as Hsep.
  unfold keeps in Hk. apply andb_true_iff in Hk as [_ Hk].
  apply endswith_spec in Hk as [stem ->].
  rewrite has_char_app in Hsep. apply orb_false_iff in Hsep as [Hstem _].
  exists (fst (fst rec)), (stem +:+ ".py").
  pose proof (base_of_discovered (fst (fst rec)) stem Hstem) as Hbase.
  pose proof (splitext_name stem "py" Hstem eq_refl eq_refl) as Hsplit.
  change (String extsep "py") with ".py" in Hsplit.
  rewrite Hsplit, Hbase.
  destruct (all_char extsep stem) eqn:Hd.
  - exists (stem +:+ ".py"), EmptyString.
    split; [done|]. split; [apply basename_join; by rewrite has_char_app, Hstem|].
    split; [done|]. split; [by rewrite sapp_nil_r|]. split.
    + right. split; [done|]. by exists stem.
    + symmetry. by apply all_dots_no_underscore.
  - exists stem, ".py".
    split; [done|]. split; [apply basename_join; by rewrite has_char_app, Hstem|].
    repeat split; auto.
Qed.

Lemma copy_destination_name_witness :
  exists files,
    Grassify.files (instance "/pkg" (Some "/out")
                      ["/pkg/i_script.py"; "/pkg/i_dr_import.py"]) = Some files /\
    forall old, In old (items files) ->
      exists dir f root ext,
        old = join dir f /\ basename old = f /\
        splitext f = (root, ext) /\ f = root +:+ ext /\
        (ext = ".py" \/
         ext = EmptyString /\
         exists dots, f = dots +:+ ".py" /\ all_char extsep dots = true) /\
        base_of old = map_char underscore_to_dot root.
Proof.
  destruct (copy_destination_name "/pkg" (Some "/out") None None pkg_world
              (instance "/pkg" (Some "/out")
                 ["/pkg/i_script.py"; "/pkg/i_dr_import.py"])
              (World pkg_fs (walk_of "/pkg" pkg_recs)
                 [Debug "Filter: .*.py" 1] 2)
              eq_refl eq_refl) as (files & Hf & _ & Hall & _).
  exists files. split; [exact Hf|exact Hall].
Defined.


(** C2. [__filter] returns whenever [re.compile] accepts the pattern
    text, whatever the text is, and raises [re.error] otherwise. Every file
    name of the walk that the compiled pattern matches at its start
    ([pattern.match]), that is not in the exclusion and that ends with the
    extension has its path in the result; the result lists these paths,
    and no others, in the order of the walk (it is a sub-sequence of the
    walk's paths), each path once when the walk lists each file once; and
    when nothing passes, the result is the empty list, returned normally.
    For a text of the fragment, matching at the start means that some
    prefix of the name is in the language of the pattern. *)
Theorem filter_lists_matches_in_walk_order self filter_p w :
  (re.compiled (w_re w) filter_p = None ->
   __filter self filter_p w = (Raise re_error, w)) /\
  (forall pattern,
      re.compiled (w_re w) filter_p = Some pattern ->
      exists files w',
        __filter self filter_p w = (Ret files, w') /\
        items files
        = flat_map (fun rec : walk_rec =>
                      map (join (fst (fst rec)))
                        (List.filter
                           (fun f => pattern f &&
                                     negb (py_in f (exclusion self)) &&
                                     endswith f (extension self))
                           (snd rec)))
            (w_walk w (import_path self)) /\
        sublist (items files) (all_paths (w_walk w (import_path self))) /\
        (forall rec f,
            In rec (w_walk w (import_path self)) -> In f (snd rec) ->
            pattern f = true -> py_in f (exclusion self) = false ->
            endswith f (extension self) = true ->
            In (join (fst (fst rec)) f) (items files)) /\
        (NoDup (all_paths (w_walk w (import_path self))) ->
         forall p, In p (items files) ->
                   count_occ string_dec (items files) p = 1%nat) /\
        ((forall rec f,
             In rec (w_walk w (import_path self)) -> In f (snd rec) ->
             pattern f && negb (py_in f (exclusion self)) &&
             endswith f (extension self) = false) ->
         items files = [])) /\
  (forall r,
      re.compile filter_p = Some r ->
      re.compiled (w_re w) filter_p = Some (re.match_ r) /\
      forall f, re.match_ r f = true <->
                exists p t, f = p +:+ t /\ lang r p).
Proof.
  split; [|split].
  - intros Hc. by rewrite filter_eval, Hc.
  - intros pattern Hc. rewrite filter_eval, Hc. eexists _, _.
    split; [reflexivity|]. cbn [items].
    set (recs := w_walk w (import_path self)).
    set (excl := exclusion self). set (ext := extension self).
    split; [reflexivity|]. split; [apply discovered_sublist|].
    split; [|split].
    + intros rec f Hrec Hf Hm He Hx. apply in_discovered.
      exists rec, f. unfold keeps. by rewrite Hm, He, Hx.
    + intros Hnd p Hp.
      assert (NoDup (discovered pattern excl ext recs)) as Hnd'.
      { apply (sublist_NoDup _ _ Hnd), discovered_sublist. }
      apply NoDup_ListNoDup in Hnd'.
      apply (proj1 (NoDup_count_occ' string_dec _) Hnd' p Hp).
    + intros Hnone. unfold discovered.
      induction recs as [|rec recs IH]; [reflexivity|]. simpl.
      rewrite IH by (intros rec' f Hrec; apply Hnone; by right).
      rewrite app_nil_r.
      assert (forall f, In f (snd rec) -> keeps pattern excl ext f = false) as Hrec.
      { intros f Hf. apply (Hnone rec f); [by left|done]. }
      clear -Hrec. induction (snd rec) as [|f l IHl]; [reflexivity|]. simpl.
      rewrite (Hrec f) by (by left). apply IHl. intros f' Hf'. apply Hrec. by right.
  - intros r Hr. split; [by apply compiled_fragment|]. intros f. apply match_spec.
Qed.

Lemma filter_lists_matches_witness :
  exists files w',
    __filter (instance "/pkg" (Some "/out") []) "^i_" anchored_world
    = (Ret files, w') /\
    items files = ["/pkg/i_script.py"; "/pkg/i_dr_import.py"] /\
    count_occ string_dec (items files) "/pkg/i_script.py" = 1%nat.
Proof.
  destruct (proj1 (proj2 (filter_lists_matches_in_walk_order
                            (instance "/pkg" (Some "/out") []) "^i_"
                            anchored_world))
              (fun s => startswith s "i_") eq_refl)
    as (files & w' & Hrun & Hitems & _ & _ & Hone & _).
  exists files, w'. split; [exact Hrun|]. split; [exact Hitems|].
  apply Hone.
  - apply NoDup_ListNoDup. repeat constructor; simpl; intuition discriminate.
  - rewrite Hitems. left. reflexivity.
Defined.

(** C3. A file name that is in the exclusion never has its path in the
    result of [__filter], whatever the directory it is in, also when the
    pattern matches it and it ends with the extension; so no path of the
    result has an excluded basename, and with the built-in exclusion none
    is named like one of the five listed files. *)
Theorem excluded_names_never_listed self filter_p w files w' :
  __filter self filter_p w = (Ret files, w') ->
  names_ok (w_walk w (import_path self)) = true ->
  (forall dir f,
      has_char sep f = false -> py_in f (exclusion self) = true ->
      ~ In (join dir f) (items files)) /\
  (forall p, In p (items files) ->
             py_in (basename p) (exclusion self) = false /\
             (exclusion self = ExclList default_exclusion ->
              ~ In (basename p) default_exclusion)).
Proof.
  intros Hrun Hok. rewrite filter_eval in Hrun.
  destruct (re.compiled (w_re w) filter_p) as [pattern|]; [|done].
  injection Hrun as <- _. cbn [items].
  assert (forall p, In p (discovered pattern (exclusion self) (extension self)
                           (w_walk w (import_path self))) ->
                    py_in (basename p) (exclusion self) = false) as Hbase.
  { intros p Hp. apply in_discovered in Hp as (rec & f & Hrec & Hf & Hk & ->).
    rewrite basename_join by (eapply names_ok_in; eauto).
    unfold keeps in Hk. apply andb_true_iff in Hk as [Hk _].
    apply andb_true_iff in Hk as [_ Hk]. by apply negb_true_iff. }
  split.
  - intros dir f Hsep Hex Hin. apply Hbase in Hin.
    rewrite basename_join in Hin by done. congruence.
  - intros p Hp. split; [by apply Hbase|].
    intros Hdef Hin. specialize (Hbase p Hp). rewrite Hdef in Hbase.
    unfold py_in in Hbase.
    assert (existsb (String.eqb (basename p)) default_exclusion = true) as Ht.
    { apply existsb_exists. exists (basename p). split; [done|].
      apply String.eqb_refl. }
    congruence.
Qed.

Lemma excluded_names_never_listed_witness :
  ~ In (join "/pkg" "__init__.py") ["/pkg/i_script.py"; "/pkg/i_dr_import.py"].
Proof.
  apply (proj1 (excluded_names_never_listed
                  (instance "/pkg" (Some "/out") []) ".*.py" pkg_world
                  (PyList 0 ["/pkg/i_script.py"; "/pkg/i_dr_import.py"])
                  (World pkg_fs (walk_of "/pkg" pkg_recs) [] 1)
                  eq_refl eq_refl) "/pkg" "__init__.py" eq_refl eq_refl).
Defined.


(** C10, as the code has it. A string passed as exclusion is tested by
    substring containment: a file name is excluded exactly when it occurs
    as a contiguous substring of that string, so no such name has its
    path in the files [__init__] discovers, also when it differs from the
    string: with [__init__.py], the name [_.py] is excluded, and
    [init.py], which does not occur in it, is not. *)
Theorem string_exclusion_is_substring_test
    input_dir export_path pattern e w self w' :
  __init__ input_dir export_path pattern (Some e) w = (Ret self, w') ->
  names_ok (w_walk w input_dir) = true ->
  exclusion self = ExclStr e /\
  (forall f, py_in f (exclusion self) = true <-> exists a b, e = a +:+ f +:+ b) /\
  (exists files,
      Grassify.files self = Some files /\
      forall dir a f b,
        e = a +:+ f +:+ b -> has_char sep f = false ->
        ~ In (join dir f) (items files)) /\
  py_in "_.py" (ExclStr "__init__.py") = true /\
  py_in "init.py" (ExclStr "__init__.py") = false.
Proof.
  intros Hinit Hok.
  pose proof Hinit as Hinv.
  apply init_Ret_inv in Hinv as (r & o & l & Hc & -> & Hl).
  split; [reflexivity|]. split; [intros f; apply contains_spec|].
  split; [|split; reflexivity].
  exists l. split; [reflexivity|].
  intros dir a f b He Hsep Hin. rewrite Hl in Hin.
  apply in_discovered in Hin as (rec & f' & Hrec & Hf' & Hk & Hj).
  assert (f' = f) as ->.
  { rewrite <- (basename_join (fst (fst rec)) f')
      by (eapply names_ok_in; eauto).
    rewrite <- Hj. by apply basename_join. }
  unfold keeps in Hk. apply andb_true_iff in Hk as [Hk _].
  apply andb_true_iff in Hk as [_ Hk]. apply negb_true_iff in Hk.
  simpl in Hk. assert (contains e f = true) as Ht by (apply contains_spec; eauto).
  congruence.
Qed.

Lemma string_exclusion_witness :
  ~ In (join "/pkg" "_.py") ["/pkg/init.py"].
Proof.
  destruct (string_exclusion_is_substring_test "/pkg" (Some "/out") None
              "__init__.py" init_world
              (Build ".py" ["grass70"; "grass71"; "grass72"; "grass73"; "grass74"]
                 (ExclStr "__init__.py") "/pkg" (Some "/out")
                 (Some (PyList 0 ["/pkg/init.py"])))
              (World init_fs (walk_of "/pkg" init_recs)
                 [Debug "Filter: .*.py" 1] 2)
              eq_refl eq_refl) as (_ & _ & (files & Hf & Hno) & _).
  injection Hf as <-.
  apply (Hno "/pkg" "__init_" "_.py" EmptyString eq_refl eq_refl).
Defined.

(** C10, the example as stated: with the exclusion [__init__.py], the file
    [init.py] is discovered all the same. *)
Lemma init_py_is_not_excluded :
  ~ (forall self w',
        __init__ "/pkg" (Some "/out") None (Some "__init__.py") init_world
        = (Ret self, w') ->
        forall files, Grassify.files self = Some files ->
                      ~ In "/pkg/init.py" (items files)).
Proof.
  intros H.
  apply (H _ _ eq_refl (PyList 0 ["/pkg/init.py"]) eq_refl).
  left. reflexivity.
Qed.

(** C8. With no export path given and the input directory present, the
    destination is the script directory of the last candidate of the list
    [grass70] .. [grass74] that exists, whatever exists before it. *)
Theorem last_existing_candidate_wins
    input_dir pattern exclusion w r pre item post :
  os.exists_in (w_fs w) input_dir = true ->
  re.compile (filter_text pattern) = Some r ->
  ["grass70"; "grass71"; "grass72"; "grass73"; "grass74"] = pre ++ item :: post ->
  os.exists_in (w_fs w) ("/usr/lib/" +:+ item +:+ "/scripts") = true ->
  (forall later, In later post ->
      os.exists_in (w_fs w) ("/usr/lib/" +:+ later +:+ "/scripts") = false) ->
  exists self w',
    __init__ input_dir None pattern exclusion w = (Ret self, w') /\
    export_path self = Some ("/usr/lib/" +:+ item +:+ "/scripts").
Proof.
  intros Hin Hc Hl Hitem Hpost.
  rewrite init_eval, Hin. simpl negb. cbv iota.
  unfold destination. rewrite probe_loop, (compiled_fragment _ _ _ Hc). cbv zeta.
  eexists _, _. split; [reflexivity|].
  unfold set_files, with_export. cbn [export_path].
  change (candidates (fresh input_dir exclusion))
    with ["grass70"; "grass71"; "grass72"; "grass73"; "grass74"].
  rewrite Hl. unfold resolve, scripts_dir. rewrite fold_left_app.
  cbn [fold_left]. rewrite Hitem.
  clear Hl. induction post as [|c post IH]; [reflexivity|]. cbn [fold_left].
  rewrite (Hpost c) by (by left).
  apply IH. intros later Hlater. apply Hpost. by right.
Qed.

Lemma last_existing_candidate_witness :
  exists self w',
    __init__ "/pkg" None None None grass_world = (Ret self, w') /\
    export_path self = Some "/usr/lib/grass72/scripts".
Proof.
  apply (last_existing_candidate_wins "/pkg" None None grass_world
           (re.Cat (re.Cat (re.Cat (re.Cat re.Eps (re.Star re.Dot)) re.Dot)
                      (re.Chr "p")) (re.Chr "y"))
           ["grass70"; "grass71"] "grass72" ["grass73"; "grass74"]
           eq_refl eq_refl eq_refl eq_refl).
  intros later [<-|[<-|[]]]; reflexivity.
Defined.

(** C4, what the code does. With no export path given and none of the
    candidate directories present, [__init__] does not stop: it returns
    an instance whose [export_path] was never assigned, having emitted its
    debug line only. A later [copy] returns 0 when no file was
    discovered, and raises [AttributeError] otherwise. *)
Theorem unresolved_destination_is_not_fatal input_dir pattern exclusion w r :
  os.exists_in (w_fs w) input_dir = true ->
  re.compile (filter_text pattern) = Some r ->
  (forall item, In item ["grass70"; "grass71"; "grass72"; "grass73"; "grass74"] ->
      os.exists_in (w_fs w) ("/usr/lib/" +:+ item +:+ "/scripts") = false) ->
  exists self w' files,
    __init__ input_dir None pattern exclusion w = (Ret self, w') /\
    export_path self = None /\
    Grassify.files self = Some files /\
    w_fs w' = w_fs w /\
    w_log w' = w_log w ++ [Debug ("Filter: " +:+ filter_text pattern) 1] /\
    (forall replace w0,
        copy self replace w0
        = match items files with
          | [] => (Ret 0, w0)
          | _ :: _ => (Raise (AttributeError "export_path"), w0)
          end).
Proof.
  intros Hin Hc Hnone.
  rewrite init_eval, Hin. simpl negb. cbv iota.
  unfold destination. rewrite probe_loop, (compiled_fragment _ _ _ Hc). cbv zeta.
  assert (resolve (w_fs w) (candidates (fresh input_dir exclusion))
            (export_path (fresh input_dir exclusion)) = None) as ->.
  { unfold resolve, scripts_dir. cbn [fold_left fresh candidates export_path].
    rewrite !Hnone by (simpl; auto 10). reflexivity. }
  eexists _, _, _. split; [reflexivity|]. simpl.
  repeat split.
  intros replace w0. rewrite copy_eval. simpl.
  destruct (discovered _ _ _ _) as [|old l]; [reflexivity|].
  rewrite for_each_cons, copy_one_eval. reflexivity.
Qed.

Lemma unresolved_destination_witness :
  exists self w' files,
    __init__ "/pkg" None None None pkg_world = (Ret self, w') /\
    export_path self = None /\
    Grassify.files self = Some files /\
    w_fs w' = w_fs pkg_world /\
    w_log w' = w_log pkg_world ++ [Debug ("Filter: " +:+ filter_text None) 1] /\
    (forall replace w0,
        copy self replace w0
        = match items files with
          | [] => (Ret 0, w0)
          | _ :: _ => (Raise (AttributeError "export_path"), w0)
          end).
Proof.
  apply (unresolved_destination_is_not_fatal "/pkg" None None pkg_world
           (re.Cat (re.Cat (re.Cat (re.Cat re.Eps (re.Star re.Dot)) re.Dot)
                      (re.Chr "p")) (re.Chr "y"))
           eq_refl eq_refl).
  intros item [<-|[<-|[<-|[<-|[<-|[]]]]]]; reflexivity.
Defined.

(** C5, what the code does. [__init__] never emits a [gs.message] text,
    whatever it is given and however it ends: the list it compares
    [self.files] with by identity is a new object. On a directory without
    python files the script discovers nothing, emits its debug line only
    and exits with status 0. *)
Theorem no_files_message_is_never_emitted :
  (forall input_dir export_path pattern exclusion w,
      exists evs,
        w_log (snd (__init__ input_dir export_path pattern exclusion w))
        = w_log w ++ evs /\
        forall m, ~ In (Message m) evs) /\
  (exists w',
      __init__ "/docs" (Some "/out") None None docs_world
      = (Ret (instance "/docs" (Some "/out") []), w')) /\
  fst (script (options_for "/docs" "/out") (flags_for false false) docs_world)
  = Exit 0 /\
  w_log (snd (script (options_for "/docs" "/out") (flags_for false false)
                docs_world))
  = [Debug "Filter: .*.py" 1].
Proof.
  split; [|split; [|split]].
  - intros. apply init_quiet.
  - exists (World docs_fs (walk_of "/docs" [("/docs", [], ["README.md"])])
              [Debug "Filter: .*.py" 1] 2).
    reflexivity.
  - vm_compute. reflexivity.
  - vm_compute. reflexivity.
Qed.


(** C6. [copy] without the replace flag is idempotent: a second run from
    the same instance ends with the same result in the same world as the
    first, whose outcome it repeats. Every entry that exists before a run
    is unchanged after it; a file whose destination exists is skipped with
    no error, and when every destination exists the run returns 0 and
    changes nothing. *)
Theorem copy_without_replace_is_idempotent self w :
  copy self false (snd (copy self false w)) = copy self false w /\
  (forall p n, w_fs w !! p = Some n ->
               w_fs (snd (copy self false w)) !! p = Some n) /\
  (forall ep old w0,
      export_path self = Some ep ->
      os.exists_in (w_fs w0) (join ep (base_of old)) = true ->
      copy_one self false old w0 = (Ret tt, w0)) /\
  (forall ep files,
      export_path self = Some ep -> Grassify.files self = Some files ->
      (forall old, In old (items files) ->
                   os.exists_in (w_fs w) (join ep (base_of old)) = true) ->
      copy self false w = (Ret 0, w)).
Proof.
  split; [|split; [|split]].
  - rewrite !copy_eval. destruct (Grassify.files self) as [files|]; [|done].
    pose proof (copy_loop_idem self (items files) w) as Hidem.
    destruct (for_each (items files) (copy_one self false) w) as [r w1].
    simpl in Hidem.
    assert (snd (match r with
                 | Ret _ => (Ret 0, w1)
                 | Raise e => (Raise e, w1)
                 | Exit c => (@Exit Z c, w1)
                 end) = w1) as -> by (by destruct r).
    by rewrite Hidem.
  - apply (maintains_copy entries_kept self false entries_kept_refl
             entries_kept_trans).
    intros files old _ _. apply copy_one_entries.
  - intros ep old w0. apply copy_one_skip.
  - intros ep files Hep Hf Hall. rewrite copy_eval, Hf.
    assert (for_each (items files) (copy_one self false) w = (Ret tt, w)) as ->;
      [|done].
    induction (items files) as [|old l IH]; [done|].
    rewrite for_each_cons, (copy_one_skip self ep old w Hep).
    + apply IH. intros x Hx. apply Hall. by right.
    + apply Hall. by left.
Qed.







End Claims.

(** * The functions on small inputs *)

Example basename_of_script :
  posixpath.basename "/home/user/pkg/i_dr_import.py" = "i_dr_import.py".
Proof. reflexivity. Qed.

Example splitext_of_script :
  posixpath.splitext "i_dr_import.py" = ("i_dr_import", ".py").
Proof. reflexivity. Qed.

Example splitext_of_dotfile :
  posixpath.splitext ".py" = (".py", EmptyString).
Proof. reflexivity. Qed.

Example replace_underscores : PyStr.replace "i_dr_import" "_" "." = "i.dr.import".
Proof. reflexivity. Qed.

Example join_script :
  posixpath.join "/usr/lib/grass70/scripts" "i.script"
  = "/usr/lib/grass70/scripts/i.script".
Proof. reflexivity. Qed.

Example compile_star_first : re.compile "*.py" = None.
Proof. reflexivity. Qed.

Example default_pattern_matches :
  option_map (fun r => (re.match_ r "i_script.py", re.match_ r "README.md"))
    (re.compile ".*.py") = Some (true, false).
Proof. reflexivity. Qed.

(** The scenario of the package with [i_script.py], [__init__.py] and
    [i_dr_import.py]: what is discovered and what the destination holds. *)
Example package_scenario :
  exists w1 w2,
    Grassify.__init__ "/pkg" (Some "/out") None None Examples.pkg_world
    = (Ret (Examples.instance "/pkg" (Some "/out")
              ["/pkg/i_script.py"; "/pkg/i_dr_import.py"]), w1) /\
    Grassify.copy (Examples.instance "/pkg" (Some "/out")
                     ["/pkg/i_script.py"; "/pkg/i_dr_import.py"]) false w1
    = (Ret 0, w2) /\
    w_fs w2 !! "/out/i.script" = Some (File Examples.content_a) /\
    w_fs w2 !! "/out/i.dr.import" = Some (File Examples.content_b) /\
    w_fs w2 !! "/out/__init__" = None.
Proof.
  eexists (World _ _ _ _), (World _ _ _ _).
  split; [vm_compute; reflexivity|]. split; [vm_compute; reflexivity|].
  split; [|split]; vm_compute; reflexivity.
Qed.

(** Without a candidate directory the script still prints in print mode,
    and stops with an attribute error when it is to copy. *)
Example unresolved_destination_runs :
  fst (script (Examples.options_for "/pkg" EmptyString)
         (Examples.flags_for true false) Examples.pkg_world) = Exit 0 /\
  fst (script (Examples.options_for "/pkg" EmptyString)
         (Examples.flags_for false false) Examples.pkg_world)
  = Raise (AttributeError "export_path").
Proof. split; vm_compute; reflexivity. Qed.

Example missing_input_is_fatal :
  script (Examples.options_for "/nope" "/out") (Examples.flags_for false false)
    Examples.pkg_world
  = (Exit 1,
     World Examples.pkg_fs (Examples.walk_of "/pkg" Examples.pkg_recs)
       [Fatal "Input directory </nope> not exists"] 0).
Proof. vm_compute. reflexivity. Qed.


(** * Further properties of the script *)

Section DictFacts.
Import More.

Lemma fold_change_item_lookup old_value new_value (l : list (string * pyval))
    (m : gmap string pyval) k :
  NoDup (l.*1) ->
  fold_left (change_item old_value new_value) l m !! k
  = match (list_to_map l : gmap string pyval) !! k with
    | Some v => if decide (v = old_value) then Some new_value else m !! k
    | None => m !! k
    end.
Proof.
  revert m. induction l as [|[k' v'] l IH]; intros m Hnd; [done|].
  apply NoDup_cons in Hnd as [Hk' Hnd]. simpl.
  rewrite (IH _ Hnd). unfold change_item. simpl.
  destruct (decide (k' = k)) as [->|Hne].
  - rewrite lookup_insert_eq.
    rewrite (not_elem_of_list_to_map_1 l k Hk').
    destruct (decide (v' = old_value)); [by rewrite lookup_insert_eq|done].
  - rewrite lookup_insert_ne by done.
    destruct (list_to_map l !! k) as [v|]; [destruct (decide (v = old_value)); [done|]|];
      (destruct (decide (v' = old_value)); [by rewrite lookup_insert_ne|done]).
Qed.

Lemma changed_lookup dictionary old_value new_value k :
  change_dict_value dictionary old_value new_value !! k
  = changed old_value new_value <$> dictionary !! k.
Proof.
  unfold change_dict_value.
  rewrite fold_change_item_lookup by apply NoDup_fst_map_to_list.
  rewrite list_to_map_to_list. unfold changed.
  destruct (dictionary !! k) as [v|] eqn:Hk; simpl; [|done].
  by destruct (decide (v = old_value)).
Qed.

(** X1. [change_dict_value] keeps the keys of the dictionary, turns every
    value equal to [old_value] into [new_value] and leaves every other
    value as it is. *)
Theorem change_dict_value_lookup dictionary old_value new_value :
  (forall k, change_dict_value dictionary old_value new_value !! k
             = changed old_value new_value <$> dictionary !! k) /\
  dom (change_dict_value dictionary old_value new_value) = dom dictionary.
Proof.
  split; [apply changed_lookup|].
  apply set_eq. intros k. rewrite !elem_of_dom, changed_lookup.
  by rewrite fmap_is_Some.
Qed.

(** X2. After [change_dict_value] no value of the dictionary equals
    [old_value], unless [new_value] is that same value, and a second call
    with the same arguments changes nothing. *)
Theorem change_dict_value_settles dictionary old_value new_value :
  (old_value <> new_value ->
   forall k, change_dict_value dictionary old_value new_value !! k
             <> Some old_value) /\
  change_dict_value (change_dict_value dictionary old_value new_value)
    old_value new_value
  = change_dict_value dictionary old_value new_value.
Proof.
  split.
  - intros Hne k. rewrite changed_lookup. unfold changed.
    destruct (dictionary !! k) as [v|]; simpl; [|done].
    destruct (decide (v = old_value)); congruence.
  - apply map_eq. intros k. rewrite !changed_lookup. unfold changed.
    destruct (dictionary !! k) as [v|]; simpl; [|done]. f_equal.
    destruct (decide (v = old_value)) as [->|Hv].
    + by destruct (decide (new_value = old_value)).
    + by destruct (decide (v = old_value)).
Qed.

End DictFacts.

Section ConstructorFacts.
Import PyStr posixpath re ReSpec Grassify Spec InitSpec CopySpec Frames Examples More.

(** X3. When the input directory does not exist, [__init__] ends the
    process with status 1 after one fatal message that names the
    directory, and does nothing else: no directory is made for an export
    path, no pattern is compiled, no object is allocated. *)
Theorem missing_input_directory_is_fatal input_dir export_path pattern exclusion w :
  os.exists_in (w_fs w) input_dir = false ->
  __init__ input_dir export_path pattern exclusion w
  = (Exit 1,
     MkWorld (w_fs w) (w_walk w)
       (w_log w ++ [Fatal ("Input directory <" +:+ input_dir +:+ "> not exists")])
       (w_next w) (w_re w)).
Proof. intros H. rewrite init_eval, H. reflexivity. Qed.

Lemma missing_input_directory_witness :
  __init__ "/nope" (Some "/new/dir") (Some "*") None pkg_world
  = (Exit 1,
     World pkg_fs (walk_of "/pkg" pkg_recs)
       [Fatal "Input directory </nope> not exists"] 0).
Proof.
  apply (missing_input_directory_is_fatal "/nope" (Some "/new/dir") (Some "*")
           None pkg_world eq_refl).
Defined.

Lemma adds_dirs_only_refl w : adds_dirs_only w w.
Proof. split; intros p n H; auto. Qed.

Lemma adds_dirs_only_trans w1 w2 w3 :
  adds_dirs_only w1 w2 -> adds_dirs_only w2 w3 -> adds_dirs_only w1 w3.
Proof.
  intros [K1 N1] [K2 N2]. split.
  - intros p n H. by apply K2, K1.
  - intros p n H. apply N2 in H as [H|H]; [by apply N1|by right].
Qed.

Lemma mkdir_adds_dirs_only p0 : maintains adds_dirs_only (os.mkdir p0).
Proof.
  intros w. unfold os.mkdir. rewrite (bind_Ret get_fs _ w (w_fs w) w) by reflexivity.
  cbv zeta. generalize (os.leaf_name p0). intros p.
  destruct (String.eqb p EmptyString); [apply adds_dirs_only_refl|].
  destruct (os.exists_in (w_fs w) p) eqn:He; [apply adds_dirs_only_refl|].
  destruct (os.parent_check (w_fs w) p); [apply adds_dirs_only_refl|].
  assert (w_fs w !! p = None) as Hp.
  { unfold os.exists_in in He. by destruct (w_fs w !! p). }
  split; simpl; intros q n Hq.
  - rewrite lookup_insert_ne; [done|]. intros <-. congruence.
  - destruct (decide (p = q)) as [<-|Hne].
    + rewrite lookup_insert_eq in Hq. right. congruence.
    + rewrite lookup_insert_ne in Hq by done. by left.
Qed.

Lemma makedirs_adds_dirs_only name : maintains adds_dirs_only (os.makedirs name).
Proof.
  unfold os.makedirs. generalize (S (String.length name)). intros fuel.
  revert name. induction fuel as [|fuel IH]; intros name.
  { apply maintains_ret, adds_dirs_only_refl. }
  simpl. unfold os.makedirs_body.
  destruct (posixpath.split name) as [head tail].
  destruct (if String.eqb tail "" then posixpath.split head else (head, tail))
    as [head' tail'].
  apply maintains_bind;
    [apply adds_dirs_only_trans
    |apply maintains_path_exists, adds_dirs_only_refl|].
  intros e.
  destruct (negb (String.eqb head' "") && negb (String.eqb tail' "") && negb e);
    [|apply mkdir_adds_dirs_only].
  apply maintains_bind; [apply adds_dirs_only_trans| |].
  - apply maintains_ignore_exists, IH.
  - intros _. destruct (String.eqb tail' ".");
      [apply maintains_ret, adds_dirs_only_refl|apply mkdir_adds_dirs_only].
Qed.

Lemma destination_adds_dirs_only self export_path :
  maintains adds_dirs_only (destination self export_path).
Proof.
  destruct export_path as [p|]; simpl.
  - apply maintains_bind;
      [apply adds_dirs_only_trans
      |apply maintains_path_exists, adds_dirs_only_refl|].
    intros e.
    apply maintains_bind;
      [apply adds_dirs_only_trans| |intros _; apply maintains_ret, adds_dirs_only_refl].
    destruct (negb e); [apply makedirs_adds_dirs_only|].
    apply maintains_ret, adds_dirs_only_refl.
  - intros w. rewrite probe_loop. apply adds_dirs_only_refl.
Qed.

(** X4. [__init__] makes directories at most, however it ends: every entry
    of the file system is kept as it is and every new entry is a
    directory. With no export path, or with one that exists, the file
    system is left as it was. *)
Theorem constructor_makes_directories_at_most
    input_dir export_path pattern exclusion w :
  (forall p n, w_fs w !! p = Some n ->
     w_fs (snd (__init__ input_dir export_path pattern exclusion w)) !! p = Some n) /\
  (forall p n,
     w_fs (snd (__init__ input_dir export_path pattern exclusion w)) !! p = Some n ->
     w_fs w !! p = Some n \/ n = Dir) /\
  ((export_path = None \/
    exists p, export_path = Some p /\ os.exists_in (w_fs w) p = true) ->
   w_fs (snd (__init__ input_dir export_path pattern exclusion w)) = w_fs w).
Proof.
  rewrite init_eval.
  destruct (negb (os.exists_in (w_fs w) input_dir)).
  { simpl. split; [done|]. split; [by left|done]. }
  pose proof (destination_adds_dirs_only (fresh input_dir exclusion) export_path w)
    as [Hk Hn].
  assert ((export_path = None \/
           exists p, export_path = Some p /\ os.exists_in (w_fs w) p = true) ->
          w_fs (snd (destination (fresh input_dir exclusion) export_path w))
          = w_fs w) as Hsame.
  { intros [->|(p & -> & Hp)]; unfold destination.
    - by rewrite probe_loop.
    - rewrite (bind_Ret (os.path_exists p) _ w true w)
        by (unfold os.path_exists, bind, get_fs, ret; by rewrite Hp).
      reflexivity. }
  destruct (destination (fresh input_dir exclusion) export_path w)
    as [[self|e|c] w1]; simpl in *; try done.
  cbv zeta. by destruct (re.compiled _ (filter_text pattern)).
Qed.

(** X5. A pattern that begins with [*], [+] or [?] has nothing to repeat:
    [__init__] never returns an instance for it, and where the input
    directory exists and no export path is given it raises [re.error]
    after its debug line, the file system untouched. *)
Theorem pattern_starting_with_quantifier_raises
    q rest input_dir export_path exclusion w :
  is_quantifier q = true ->
  (forall self w',
      __init__ input_dir export_path (Some (String q rest)) exclusion w
      <> (Ret self, w')) /\
  (os.exists_in (w_fs w) input_dir = true ->
   __init__ input_dir None (Some (String q rest)) exclusion w
   = (Raise re_error,
      MkWorld (w_fs w) (w_walk w)
        (w_log w ++ [Debug ("Filter: " +:+ String q rest) 1]) (w_next w)
        (w_re w))).
Proof.
  intros Hq. split.
  - intros self w' H. apply init_Ret_inv in H as (r & _ & _ & Hr & _).
    simpl in Hr. by rewrite (compiled_nothing_to_repeat _ q rest Hq) in Hr.
  - intros Hin. rewrite init_eval, Hin. simpl negb. cbv iota.
    unfold destination. rewrite probe_loop. cbv zeta. simpl filter_text.
    by rewrite (compiled_nothing_to_repeat _ q rest Hq).
Qed.

Lemma pattern_starting_with_quantifier_witness :
  __init__ "/pkg" None (Some "*.py") None pkg_world
  = (Raise re_error,
     World pkg_fs (walk_of "/pkg" pkg_recs) [Debug "Filter: *.py" 1] 0).
Proof.
  apply (proj2 (pattern_starting_with_quantifier_raises "*" ".py" "/pkg" None
                  None pkg_world eq_refl) eq_refl).
Defined.

Lemma lang_star_dot s : has_char newline s = false -> lang (Star Dot) s.
Proof.
  induction s as [|c s IH]; simpl; [constructor|].
  intros [Hc Hs]%orb_false_iff.
  apply (lang_star_cons Dot (String c EmptyString) s); [|by apply IH].
  constructor. unfold dot_matches. unfold newline in Hc. by rewrite Hc.
Qed.

Lemma lang_star_dot_inv s : lang (Star Dot) s -> has_char newline s = false.
Proof.
  intros H. remember (Star Dot) as r eqn:Hr.
  induction H as [| | | | | | |r0 s1 s2 H1 _ H2 IH2]; try discriminate.
  - reflexivity.
  - injection Hr as ->. rewrite has_char_app, (IH2 eq_refl), orb_false_r.
    inversion H1 as [|?|c Hc| | | | |]; subst. simpl.
    unfold dot_matches in Hc. apply negb_true_iff in Hc. unfold newline.
    by rewrite Hc.
Qed.

(** The texts the default pattern matches as a whole. *)
Lemma lang_default_pattern s :
  lang default_pattern s <->
  exists u c, s = u +:+ String c "py" /\ has_char newline u = false /\
              c <> newline.
Proof.
  unfold default_pattern. split.
  - intros H.
    inversion H as [| | |? ? s4 sy H4 Hy| | | |]; subst.
    inversion Hy; subst.
    inversion H4 as [| | |? ? s3 sp H3 Hp| | | |]; subst.
    inversion Hp; subst.
    inversion H3 as [| | |? ? s2 sd H2 Hd| | | |]; subst.
    inversion Hd as [|?|c Hc| | | | |]; subst.
    inversion H2 as [| | |? ? s1 su H1 Hu| | | |]; subst.
    inversion H1; subst.
    exists su, c. rewrite sapp_nil_l, !sapp_assoc. split; [reflexivity|].
    split; [by apply lang_star_dot_inv|].
    intros ->. discriminate.
  - intros (u & c & -> & Hu & Hc).
    replace (u +:+ String c "py")
      with ((((EmptyString +:+ u) +:+ String c EmptyString) +:+ "p") +:+ "y")
      by (rewrite !sapp_assoc; reflexivity).
    repeat apply lang_cat; try constructor; [by apply lang_star_dot|].
    unfold dot_matches. apply negb_true_iff. by apply Ascii.eqb_neq.
Qed.

(** X6. With no pattern given the pattern is [.*.py], where each [.]
    stands for any character but a newline: it matches a name exactly when
    the name holds, after a beginning without a newline, one more
    character that is not a newline and then [py]. So every file of the
    walk whose name ends with [.py], holds no newline and is not excluded
    is among the files [__init__] discovers. The pattern does not ask for
    a dot ([happy] is matched), and it looks at the first line of a name
    only: [a], newline, [b.py] is not matched, [x.py], newline, [y.py]
    is. *)
Theorem default_pattern_keeps_every_python_file
    input_dir export_path exclusion w self w' :
  __init__ input_dir export_path None exclusion w = (Ret self, w') ->
  (exists files,
      Grassify.files self = Some files /\
      forall rec f,
        In rec (w_walk w input_dir) -> In f (snd rec) ->
        endswith f ".py" = true -> has_char newline f = false ->
        py_in f (Grassify.exclusion self) = false ->
        In (join (fst (fst rec)) f) (items files)) /\
  re.compile (".*" +:+ ".py") = Some default_pattern /\
  (forall f,
      re.match_ default_pattern f = true <->
      exists u c t, f = u +:+ String c "py" +:+ t /\
                    has_char newline u = false /\ c <> newline) /\
  re.match_ default_pattern "happy" = true /\
  re.match_ default_pattern ("a" +:+ String newline "b.py") = false /\
  re.match_ default_pattern ("x.py" +:+ String newline "y.py") = true.
Proof.
  assert (forall f,
             re.match_ default_pattern f = true <->
             exists u c t, f = u +:+ String c "py" +:+ t /\
                           has_char newline u = false /\ c <> newline) as Hm.
  { intros f. rewrite match_spec. split.
    - intros (p & t & -> & (u & c & -> & Hu & Hc)%lang_default_pattern).
      exists u, c, t. by rewrite sapp_assoc.
    - intros (u & c & t & -> & Hu & Hc).
      exists (u +:+ String c "py"), t. split; [by rewrite sapp_assoc|].
      apply lang_default_pattern. eauto. }
  intros Hinit. split; [|split; [reflexivity|split; [exact Hm|by vm_compute]]].
  apply init_Ret_inv in Hinit as (r & o & l & Hc & -> & Hl).
  exists l. split; [reflexivity|].
  intros rec f Hrec Hf Hend Hnl Hex. rewrite Hl. apply in_discovered.
  exists rec, f. split; [done|]. split; [done|]. split; [|done].
  unfold keeps. simpl in Hex. rewrite Hex, Hend.
  rewrite (compiled_fragment (w_re w) (filter_text None) default_pattern eq_refl)
    in Hc.
  injection Hc as <-.
  assert (re.match_ default_pattern f = true) as ->; [|done].
  apply Hm. apply endswith_spec in Hend as [stem ->].
  rewrite has_char_app in Hnl. apply orb_false_iff in Hnl as [Hnl _].
  exists stem, "."%char, EmptyString. rewrite sapp_nil_r. split; [done|].
  split; [done|]. discriminate.
Qed.

Lemma default_pattern_witness :
  In (join "/pkg" "i_script.py") ["/pkg/i_script.py"; "/pkg/i_dr_import.py"].
Proof.
  destruct (default_pattern_keeps_every_python_file "/pkg" (Some "/out") None
              pkg_world
              (instance "/pkg" (Some "/out")
                 ["/pkg/i_script.py"; "/pkg/i_dr_import.py"])
              (World pkg_fs (walk_of "/pkg" pkg_recs)
                 [Debug "Filter: .*.py" 1] 2) eq_refl)
    as [(files & Hf & Hall) _].
  injection Hf as <-.
  apply (Hall ("/pkg", [], ["i_script.py"; "__init__.py"; "i_dr_import.py"])
           "i_script.py"); try reflexivity; simpl; auto.
Defined.

Lemma join_ends_with a b : exists pre, join a b = pre +:+ b.
Proof.
  unfold join. destruct (startswith b _); [by exists EmptyString|].
  destruct (_ || _); [by exists a|].
  exists (a +:+ String sep EmptyString). by rewrite sapp_assoc.
Qed.

(** X7. Every path [__filter] returns ends with the extension and is the
    join of a directory of the walk with one of the file names the walk
    lists for it: the result holds nothing the walk did not yield. *)
Theorem filtered_paths_end_with_extension self filter_p w files w' :
  __filter self filter_p w = (Ret files, w') ->
  forall p, In p (items files) ->
    endswith p (extension self) = true /\
    exists rec f, In rec (w_walk w (import_path self)) /\ In f (snd rec) /\
                  p = join (fst (fst rec)) f.
Proof.
  intros Hrun p Hp. rewrite filter_eval in Hrun.
  destruct (re.compiled (w_re w) filter_p) as [pattern0|]; [|done].
  injection Hrun as <- _. simpl in Hp.
  apply in_discovered in Hp as (rec & f & Hrec & Hf & Hk & ->).
  split; [|by exists rec, f].
  unfold keeps in Hk. apply andb_true_iff in Hk as [_ Hk].
  apply endswith_spec in Hk as [stem Hstem].
  destruct (join_ends_with (fst (fst rec)) f) as [pre ->].
  apply endswith_spec. exists (pre +:+ stem). by rewrite Hstem, sapp_assoc.
Qed.

Lemma filtered_paths_witness :
  endswith "/pkg/i_dr_import.py" ".py" = true /\
  exists rec f, In rec pkg_recs /\ In f (snd rec) /\
                "/pkg/i_dr_import.py" = join (fst (fst rec)) f.
Proof.
  apply (filtered_paths_end_with_extension (instance "/pkg" (Some "/out") [])
           ".*.py" pkg_world
           (PyList 0 ["/pkg/i_script.py"; "/pkg/i_dr_import.py"])
           (World pkg_fs (walk_of "/pkg" pkg_recs) [] 1) eq_refl).
  right. left. reflexivity.
Defined.

End ConstructorFacts.

Section DestinationPath.
Import PyStr posixpath Grassify Spec CopySpec More.

Lemma rfind_lt s c : rfind s c < len s.
Proof.
  unfold len. induction s as [|a s IH]; simpl rfind; simpl String.length; [lia|].
  destruct (Z.leb_spec 0 (rfind s c)); [lia|]. destruct (Ascii.eqb a c); lia.
Qed.

Lemma rfind_negative_absent s c : rfind s c < 0 -> has_char c s = false.
Proof.
  induction s as [|a s IH]; simpl; [done|].
  destruct (Z.leb_spec 0 (rfind s c)) as [Hr|Hr].
  - pose proof (rfind_ge s c). lia.
  - destruct (Ascii.eqb a c); [lia|]. intros _. by rewrite IH.
Qed.

(** Nothing after the last occurrence of [c] is [c]. *)
Lemma drop_after_rfind s c :
  has_char c (drop (Z.to_nat (rfind s c + 1)) s) = false.
Proof.
  induction s as [|a s IH]; [reflexivity|]. simpl rfind.
  pose proof (rfind_ge s c) as Hge.
  destruct (Z.leb_spec 0 (rfind s c)) as [Hr|Hr].
  - replace (Z.to_nat (rfind s c + 1 + 1)) with (S (Z.to_nat (rfind s c + 1)))
      by lia.
    exact IH.
  - assert (has_char c s = false) as Hs by (by apply rfind_negative_absent).
    destruct (Ascii.eqb a c) eqn:Ha; simpl; [done|]. by rewrite Ha, Hs.
Qed.

Lemma basename_no_sep p : has_char sep (basename p) = false.
Proof.
  unfold basename, slice_from. rewrite bound_nonneg.
  - apply drop_after_rfind.
  - pose proof (rfind_ge p sep). pose proof (rfind_lt p sep). lia.
Qed.

Lemma has_char_take c n s : has_char c s = false -> has_char c (take n s) = false.
Proof.
  revert s. induction n as [|n IH]; intros [|a s]; simpl; try done.
  intros [Ha Hs]%orb_false_iff. by rewrite Ha, IH.
Qed.

Lemma take_all s : take (String.length s) s = s.
Proof. induction s as [|a s IH]; simpl; [done|]. by rewrite IH. Qed.

Lemma splitext_loop_root p d n i :
  exists k, fst (splitext_loop p d n i) = take k p.
Proof.
  revert i. induction n as [|n IH]; intros i; simpl.
  - exists (String.length p). by rewrite take_all.
  - destruct (negb _); [|apply IH]. by eexists.
Qed.

Lemma splitext_root_no_sep q :
  has_char sep q = false -> has_char sep (fst (splitext q)) = false.
Proof.
  intros Hq. unfold splitext. destruct (_ <? _); [|done].
  destruct (splitext_loop_root q (rfind q extsep)
              (Z.to_nat (rfind q extsep - (rfind q sep + 1))) (rfind q sep + 1))
    as [k ->].
  by apply has_char_take.
Qed.

(** The transformed name holds no separator. *)
Lemma base_of_no_sep old : has_char sep (base_of old) = false.
Proof.
  unfold base_of. rewrite (replace_char _ "_" ".").
  apply has_char_map_char.
  - intros a. destruct (Ascii.eqb_spec "_" a) as [<-|_].
    + left. discriminate.
    + destruct (Ascii.eqb_spec a sep); [by right|by left].
  - apply splitext_root_no_sep, basename_no_sep.
Qed.

Lemma all_char_app c s t : all_char c (s +:+ t) = all_char c s && all_char c t.
Proof.
  induction s as [|a s IH]; [reflexivity|].
  rewrite sapp_cons. simpl. by rewrite IH, andb_assoc.
Qed.

Lemma all_char_ends c s :
  all_char c s = true -> s = EmptyString \/ exists stem, s = stem +:+ String c EmptyString.
Proof.
  induction s as [|a s IH]; simpl; [by left|].
  intros [Ha Hs]%andb_true_iff. apply Ascii.eqb_eq in Ha as ->. right.
  destruct (IH Hs) as [->|[stem ->]].
  - by exists EmptyString.
  - by exists (String c stem).
Qed.

Lemma rstrip_snoc s c : rstrip (s +:+ String c EmptyString) c = rstrip s c.
Proof.
  induction s as [|a s IH].
  - simpl. by rewrite Ascii.eqb_refl.
  - rewrite sapp_cons. simpl. by rewrite IH.
Qed.

Lemma rstrip_no_end s c :
  (forall stem, s <> stem +:+ String c EmptyString) -> rstrip s c = s.
Proof.
  induction s as [|a s IH]; intros Hs; [reflexivity|]. simpl.
  destruct s as [|b s].
  - simpl. destruct (Ascii.eqb_spec a c) as [->|]; [|done].
    by destruct (Hs EmptyString).
  - rewrite IH; [done|]. intros stem Heq. apply (Hs (String a stem)).
    by rewrite sapp_cons, <- Heq.
Qed.

(** A destination lies directly in the export path. *)
Lemma dirname_join ep b :
  ep <> EmptyString -> endswith ep (String sep EmptyString) = false ->
  has_char sep b = false ->
  join ep b = ep +:+ String sep b /\ dirname (join ep b) = ep.
Proof.
  intros Hne Hend Hb.
  assert (forall stem, ep <> stem +:+ String sep EmptyString) as Hno.
  { intros stem Heq.
    assert (endswith ep (String sep EmptyString) = true) as Ht
      by (apply endswith_spec; eauto).
    congruence. }
  assert (join ep b = ep +:+ String sep b) as Hj.
  { unfold join.
    destruct (startswith b (String sep EmptyString)) eqn:Hs.
    { apply startswith_spec in Hs as [t ->]. rewrite has_char_app in Hb.
      apply orb_false_iff in Hb as [Hb _]. vm_compute in Hb. discriminate. }
    destruct (String.eqb_spec ep EmptyString); [done|]. simpl. by rewrite Hend. }
  split; [done|]. rewrite Hj. unfold dirname, split.
  rewrite (rfind_last _ _ _ Hb). cbn [fst].
  replace (ep +:+ String sep b) with ((ep +:+ String sep EmptyString) +:+ b)
    by (by rewrite sapp_assoc).
  replace (len ep + 1) with (len (ep +:+ String sep EmptyString))
    by (rewrite len_app; reflexivity).
  rewrite slice_to_app.
  assert (all_char sep (ep +:+ String sep EmptyString) = false) as ->.
  { rewrite all_char_app. apply andb_false_iff. left.
    destruct (all_char sep ep) eqn:Ha; [|done].
    apply all_char_ends in Ha as [->|[stem ->]]; [done|]. by destruct (Hno stem). }
  replace (String.eqb (ep +:+ String sep EmptyString) EmptyString) with false
    by (symmetry; apply String.eqb_neq; by destruct ep).
  simpl. rewrite rstrip_snoc. by apply rstrip_no_end.
Qed.

(** X8. The name [copy] gives a copy holds no separator: for an export
    path that is not empty and does not end with a separator, the
    destination path is [export_path/name], and its [dirname] is the
    export path. The name can be [.] or [..], as for the files [_.py] and
    [__.py]; the destination path then names a directory, not an entry of
    the export path, and with the replace flag the copy of [__.py] is
    written to [export_path/../__.py], inside the directory above. *)
Theorem destination_path_shape ep :
  (forall old, has_char sep (base_of old) = false) /\
  (ep <> EmptyString -> endswith ep (String sep EmptyString) = false ->
   forall old,
     dest ep old = ep +:+ String sep (base_of old) /\
     dirname (dest ep old) = ep) /\
  (forall dir, base_of (join dir "_.py") = "." /\
               base_of (join dir "__.py") = "..") /\
  (forall self dir c w,
      export_path self = Some ep ->
      os.isdir_in (w_fs w) (join ep "..") = true ->
      w_fs w !! join dir "__.py" = Some (File c) ->
      w_fs w !! join (join ep "..") "__.py" = None ->
      exists w',
        copy_one self true (join dir "__.py") w = (Ret tt, w') /\
        w_fs w' !! join (join ep "..") "__.py" = Some (File c)).
Proof.
  split; [apply base_of_no_sep|]. split; [|split].
  - intros Hne Hend old. apply dirname_join; [done..|apply base_of_no_sep].
  - intros dir. split.
    + exact (base_of_discovered dir "_" eq_refl).
    + exact (base_of_discovered dir "__" eq_refl).
  - intros self dir c w Hep Hdir Hold Hnew.
    assert (base_of (join dir "__.py") = "..") as Hbase
      by exact (base_of_discovered dir "__" eq_refl).
    assert (basename (join dir "__.py") = "__.py") as Hname
      by (by apply basename_join).
    rewrite copy_one_eval, Hep. cbv zeta. unfold dest. rewrite Hbase, Hname, Hdir.
    rewrite andb_false_r.
    set (up := join ep "..") in *. set (old := join dir "__.py") in *.
    assert (exists pre, up = pre +:+ "..") as [pre Hup] by apply join_ends_with.
    assert (up <> EmptyString) as Hne by (rewrite Hup; by destruct pre).
    assert (endswith up (String sep EmptyString) = false) as Hend.
    { destruct (endswith up (String sep EmptyString)) eqn:He; [|done].
      apply endswith_spec in He as [stem He]. rewrite Hup in He.
      assert (PyStr.drop (String.length (pre +:+ "..") - 1) (pre +:+ "..")
              = PyStr.drop (String.length (stem +:+ String sep EmptyString) - 1)
                  (stem +:+ String sep EmptyString)) as Hd by (by rewrite He).
      rewrite !slength_app in Hd. simpl String.length in Hd.
      replace (String.length pre + 2 - 1)%nat with (String.length (pre +:+ "."))
        in Hd by (rewrite slength_app; simpl; lia).
      replace (pre +:+ "..") with ((pre +:+ ".") +:+ ".") in Hd
        by (by rewrite sapp_assoc).
      replace (String.length stem + 1 - 1)%nat with (String.length stem) in Hd by lia.
      rewrite !sdrop_app in Hd. discriminate. }
    destruct (dirname_join up "__.py" Hne Hend eq_refl) as [_ Hdn].
    unfold shutil.copyfile.
    rewrite (bind_Ret get_fs _ w (w_fs w) w) by reflexivity.
    assert (String.eqb old (join up "__.py") = false) as ->.
    { apply String.eqb_neq. intros Heq. rewrite <- Heq in Hnew. congruence. }
    simpl andb. cbv iota. rewrite Hold, Hnew.
    unfold os.parent_check. rewrite Hdn.
    replace (String.eqb up EmptyString) with false
      by (symmetry; by apply String.eqb_neq).
    unfold os.isdir_in in Hdir.
    destruct (w_fs w !! up) as [[?|]|]; try done.
    eexists. split; [reflexivity|]. simpl. by rewrite lookup_insert_eq.
Qed.

Lemma destination_path_witness :
  exists w',
    copy_one (Examples.instance "/pkg" (Some "/out") ["/pkg/__.py"]) true
      "/pkg/__.py" dots_world = (Ret tt, w') /\
    w_fs w' !! "/out/../__.py" = Some (File Examples.content_a).
Proof.
  apply (proj2 (proj2 (proj2 (destination_path_shape "/out")))
           (Examples.instance "/pkg" (Some "/out") ["/pkg/__.py"]) "/pkg"
           Examples.content_a dots_world eq_refl eq_refl eq_refl eq_refl).
Defined.

End DestinationPath.

Section CopyMore.
Import PyStr posixpath Grassify Spec CopySpec Frames Examples More.

Lemma copy_one_same_log self replace old :
  maintains same_log (copy_one self replace old).
Proof.
  intros w. destruct (copy_one self replace old w) as [r w'] eqn:H.
  by apply copy_one_effect in H as [[-> _]|(_ & ep & c & t & _ & _ & _ & _ & _ & _ & ->)].
Qed.

(** X9. [copy] is silent: whatever it copies, skips or fails on, it emits
    no message and writes nothing to the output. *)
Theorem copy_emits_nothing self replace w :
  w_log (snd (copy self replace w)) = w_log w.
Proof.
  apply (maintains_copy same_log self replace).
  - done.
  - unfold same_log. congruence.
  - intros files old _ _. apply copy_one_same_log.
Qed.

(** X10. [copy] stops at the first file it cannot read: when a discovered
    file is gone, and its destination is absent or the replace flag is
    set, [copy] raises [IOError] (no such file) at it; the copies of the
    files before it stay, the files after it are not looked at. *)
Theorem copy_stops_at_a_vanished_source
    self files ep replace w earlier old later w1 :
  Grassify.files self = Some files -> export_path self = Some ep ->
  items files = earlier ++ old :: later ->
  for_each earlier (copy_one self replace) w = (Ret tt, w1) ->
  w_fs w1 !! old = None ->
  replace = true \/ w_fs w1 !! dest ep old = None ->
  copy self replace w = (Raise (IOError ENOENT), w1).
Proof.
  intros Hf Hep Hl Hrun Hold Hcase.
  rewrite copy_eval, Hf, Hl, for_each_app, Hrun, for_each_cons, copy_one_eval, Hep.
  cbv zeta.
  assert (os.exists_in (w_fs w1) (dest ep old) && negb replace = false) as ->.
  { destruct Hcase as [->|Hd]; [apply andb_false_r|].
    unfold os.exists_in. by rewrite Hd. }
  unfold shutil.copyfile.
  rewrite (bind_Ret get_fs _ w1 (w_fs w1) w1) by reflexivity.
  unfold os.exists_in at 1. rewrite Hold, andb_false_r. reflexivity.
Qed.

Lemma copy_stops_witness :
  copy (instance "/pkg" (Some "/out") ["/pkg/a_b.py"; "/pkg/c_d.py"; "/pkg/e_f.py"])
    false gone_world
  = (Raise (IOError ENOENT),
     World (<["/out/a.b" := File content_a]> gone_fs)
       (walk_of "/pkg" [("/pkg", [], ["a_b.py"; "c_d.py"; "e_f.py"])]) [] 0).
Proof.
  apply (copy_stops_at_a_vanished_source
           (instance "/pkg" (Some "/out")
              ["/pkg/a_b.py"; "/pkg/c_d.py"; "/pkg/e_f.py"])
           (PyList 0 ["/pkg/a_b.py"; "/pkg/c_d.py"; "/pkg/e_f.py"]) "/out" false
           gone_world ["/pkg/a_b.py"] "/pkg/c_d.py" ["/pkg/e_f.py"]);
    try (right); vm_compute; reflexivity.
Defined.

(** X11. [copy] does not make the export directory: when the export path
    (not empty, without a separator at its end) is not a directory, the
    first discovered file that is there and has no destination yet makes
    [copy] raise [IOError], not a directory when the export path is a
    file and no such file when it is absent, and nothing is written. *)
Theorem copy_needs_the_export_directory self files ep replace w old rest c :
  Grassify.files self = Some files -> export_path self = Some ep ->
  ep <> EmptyString -> endswith ep (String sep EmptyString) = false ->
  os.isdir_in (w_fs w) ep = false ->
  items files = old :: rest ->
  w_fs w !! old = Some (File c) ->
  w_fs w !! dest ep old = None ->
  copy self replace w
  = (Raise (IOError (if os.exists_in (w_fs w) ep then ENOTDIR else ENOENT)), w).
Proof.
  intros Hf Hep Hne Hend Hdir Hl Hold Hd.
  destruct (dirname_join ep (base_of old) Hne Hend (base_of_no_sep old))
    as [_ Hdn].
  fold (dest ep old) in Hdn.
  rewrite copy_eval, Hf, Hl, for_each_cons, copy_one_eval, Hep. cbv zeta.
  unfold os.exists_in at 1. rewrite Hd. simpl andb. cbv iota.
  unfold os.isdir_in at 1. rewrite Hd.
  unfold shutil.copyfile.
  rewrite (bind_Ret get_fs _ w (w_fs w) w) by reflexivity.
  assert (String.eqb old (dest ep old) = false) as ->.
  { apply String.eqb_neq. intros Heq. rewrite <- Heq in Hd. congruence. }
  simpl andb. cbv iota. rewrite Hold, Hd.
  unfold os.parent_check. rewrite Hdn.
  replace (String.eqb ep EmptyString) with false
    by (symmetry; by apply String.eqb_neq).
  unfold os.isdir_in in Hdir. unfold os.exists_in.
  by destruct (w_fs w !! ep) as [[?|]|].
Qed.

Lemma copy_needs_the_export_directory_witness :
  copy (instance "/pkg" (Some "/out") ["/pkg/a_b.py"]) true no_out_world
  = (Raise (IOError ENOENT), no_out_world).
Proof.
  apply (copy_needs_the_export_directory
           (instance "/pkg" (Some "/out") ["/pkg/a_b.py"])
           (PyList 0 ["/pkg/a_b.py"]) "/out" true no_out_world
           "/pkg/a_b.py" [] content_a eq_refl eq_refl);
    [discriminate|vm_compute; reflexivity..].
Defined.

(** X12. A file is never copied onto itself: when the first discovered
    file is its own destination, [copy] with the replace flag raises
    [shutil.Error] and leaves the world as it is. *)
Theorem file_is_never_copied_onto_itself self files ep w old rest c :
  Grassify.files self = Some files -> export_path self = Some ep ->
  items files = old :: rest ->
  dest ep old = old ->
  w_fs w !! old = Some (File c) ->
  copy self true w = (Raise shutil_Error, w).
Proof.
  intros Hf Hep Hl Hd Hold.
  rewrite copy_eval, Hf, Hl, for_each_cons, copy_one_eval, Hep. cbv zeta.
  rewrite andb_false_r, Hd. unfold os.isdir_in. rewrite Hold.
  unfold shutil.copyfile.
  rewrite (bind_Ret get_fs _ w (w_fs w) w) by reflexivity.
  unfold os.exists_in. by rewrite String.eqb_refl, Hold.
Qed.

Lemma file_is_never_copied_onto_itself_witness :
  copy (instance "/d" (Some "/d") ["/d/.py"]) true dotfile_world
  = (Raise shutil_Error, dotfile_world).
Proof.
  apply (file_is_never_copied_onto_itself
           (instance "/d" (Some "/d") ["/d/.py"]) (PyList 0 ["/d/.py"]) "/d"
           dotfile_world "/d/.py" [] content_a
           eq_refl eq_refl eq_refl eq_refl eq_refl).
Defined.

End CopyMore.

Section MainFacts.
Import PyStr posixpath Grassify Spec InitSpec CopySpec Frames Examples More.

Lemma getitem_Some {V} (d : gmap string V) k v w :
  d !! k = Some v -> getitem d k w = (Ret v, w).
Proof. unfold getitem. by intros ->. Qed.

Lemma print_loop l w :
  for_each l (fun f => emit (detected_line f)) w
  = (Ret tt,
     MkWorld (w_fs w) (w_walk w) (w_log w ++ map detected_line l) (w_next w)
       (w_re w)).
Proof.
  revert w. induction l as [|f l IH]; intros w; simpl.
  - rewrite app_nil_r. by destruct w.
  - unfold bind, emit at 1. rewrite IH. simpl. by rewrite <- app_assoc.
Qed.

(** X13. In print mode [main] copies nothing: once [__init__] has returned,
    it writes one line per discovered file, in the order of discovery,
    leaves the file system as [__init__] left it, and returns 0, without
    looking at the replace flag. *)
Theorem print_mode_lists_and_copies_nothing
    options flags w input_dir export_path pattern exclusion self w1 :
  options !! "input_dir" = Some (Some input_dir) ->
  options !! "export_path" = Some export_path ->
  options !! "pattern" = Some pattern ->
  options !! "exclusion" = Some exclusion ->
  flags !! "p" = Some true ->
  __init__ input_dir export_path pattern exclusion w = (Ret self, w1) ->
  exists files,
    Grassify.files self = Some files /\
    main options flags w
    = (Ret 0,
       MkWorld (w_fs w1) (w_walk w1)
         (w_log w1 ++ map detected_line (items files)) (w_next w1) (w_re w1)).
Proof.
  intros Hi He Hp Hx Hflag Hinit.
  pose proof Hinit as Hinv.
  apply init_Ret_inv in Hinv as (r & o & l & _ & Hself & _).
  exists l. split; [by rewrite Hself|].
  unfold main.
  rewrite (bind_Ret _ _ _ _ _ (getitem_Some options _ _ w Hi)).
  rewrite (bind_Ret _ _ _ _ _ (getitem_Some options _ _ w He)).
  rewrite (bind_Ret _ _ _ _ _ (getitem_Some options _ _ w Hp)).
  rewrite (bind_Ret _ _ _ _ _ (getitem_Some options _ _ w Hx)).
  rewrite (bind_Ret _ _ _ _ _ Hinit).
  rewrite (bind_Ret _ _ _ _ _ (getitem_Some flags _ _ w1 Hflag)).
  unfold print_products, get_files. rewrite Hself. cbn [files].
  unfold bind at 1. unfold bind at 1. unfold ret at 1.
  change (fun f => emit (Stdout ("Detected Files <" +:+ f +:+ "> " +:+ String "010" "")))
    with (fun f => emit (detected_line f)).
  by rewrite print_loop.
Qed.

Lemma print_mode_witness :
  exists files,
    Grassify.files (instance "/pkg" (Some "/out")
                      ["/pkg/i_script.py"; "/pkg/i_dr_import.py"]) = Some files /\
    main (change_dict_value (options_for "/pkg" "/out") (Some EmptyString) None)
      (flags_for true false) pkg_world
    = (Ret 0,
       World pkg_fs (walk_of "/pkg" pkg_recs)
         ([Debug "Filter: .*.py" 1] ++ map detected_line (items files)) 2).
Proof.
  apply (print_mode_lists_and_copies_nothing
           (change_dict_value (options_for "/pkg" "/out") (Some EmptyString) None)
           (flags_for true false) pkg_world "/pkg" (Some "/out") None None
           (instance "/pkg" (Some "/out") ["/pkg/i_script.py"; "/pkg/i_dr_import.py"])
           (World pkg_fs (walk_of "/pkg" pkg_recs) [Debug "Filter: .*.py" 1] 2));
    vm_compute; reflexivity.
Defined.

Lemma exits_with_bind {A B} P (m : M A) (k : A -> M B) :
  exits_with P m -> (forall a, exits_with P (k a)) -> exits_with P (bind m k).
Proof.
  intros Hm Hk w c w'. unfold bind.
  destruct (m w) as [[a|e|c'] w1] eqn:H; [apply Hk|done|].
  intros Heq. injection Heq as <- <-. by apply (Hm w c' w1).
Qed.

Lemma exits_with_never {A} P (m : M A) :
  (forall w c w', m w <> (Exit c, w')) -> exits_with P m.
Proof. intros H w c w' Heq. by destruct (H w c w'). Qed.

Lemma exits_with_ret {A} P (a : A) : exits_with P (ret a).
Proof. by apply exits_with_never. Qed.

Lemma exits_with_raise {A} P e : exits_with P (@raise A e).
Proof. by apply exits_with_never. Qed.

Lemma exits_with_getitem {V} P (d : gmap string V) k : exits_with P (getitem d k).
Proof. apply exits_with_never. intros w c w'. unfold getitem. by destruct (d !! k). Qed.

Lemma exits_with_for_each {A} P (l : list A) body :
  (forall x, exits_with P (body x)) -> exits_with P (for_each l body).
Proof.
  intros Hb. induction l as [|x l IH]; simpl; [apply exits_with_ret|].
  apply exits_with_bind; [apply Hb|]. by intros _.
Qed.

Lemma exits_with_mkdir P p : exits_with P (os.mkdir p).
Proof.
  apply exits_with_never. intros w c w'. unfold os.mkdir.
  rewrite (bind_Ret get_fs _ w (w_fs w) w) by reflexivity.
  cbv zeta. destruct (String.eqb _ _); [done|].
  destruct (os.exists_in _ _); [done|]. by destruct (os.parent_check _ _).
Qed.

Lemma exits_with_ignore_exists P m :
  exits_with P m -> exits_with P (os.ignore_exists m).
Proof.
  intros Hm w c w'. unfold os.ignore_exists. specialize (Hm w).
  destruct (m w) as [[[]|[| | | | | |[]|]|c'] w1]; try done.
  intros Heq. injection Heq as <- <-. by apply (Hm c' w1).
Qed.

Lemma exits_with_makedirs P name : exits_with P (os.makedirs name).
Proof.
  unfold os.makedirs. generalize (S (String.length name)). intros fuel.
  revert name. induction fuel as [|fuel IH]; intros name; [apply exits_with_ret|].
  simpl. unfold os.makedirs_body.
  destruct (posixpath.split name) as [head tail].
  destruct (if String.eqb tail "" then posixpath.split head else (head, tail))
    as [head' tail'].
  apply exits_with_bind; [by apply exits_with_never|]. intros e.
  destruct (negb (String.eqb head' "") && negb (String.eqb tail' "") && negb e);
    [|apply exits_with_mkdir].
  apply exits_with_bind; [apply exits_with_ignore_exists, IH|].
  intros _. destruct (String.eqb tail' ".");
    [apply exits_with_ret|apply exits_with_mkdir].
Qed.

(** [__init__] ends the process in one way only: at a missing input
    directory, after the fatal message. *)
Lemma init_Exit_inv input_dir export_path pattern exclusion w c w' :
  __init__ input_dir export_path pattern exclusion w = (Exit c, w') ->
  c = 1 /\ os.exists_in (w_fs w) input_dir = false /\
  w' = log_add w (Fatal ("Input directory <" +:+ input_dir +:+ "> not exists")).
Proof.
  rewrite init_eval. destruct (os.exists_in (w_fs w) input_dir); simpl negb; cbv iota.
  2:{ intros Heq. by injection Heq as <- <-. }
  assert (exits_with (fun _ => False)
            (destination (fresh input_dir exclusion) export_path)) as Hd.
  { destruct export_path as [p|]; unfold destination.
    - apply exits_with_bind; [by apply exits_with_never|]. intros e.
      apply exits_with_bind; [|intros _; apply exits_with_ret].
      destruct (negb e); [apply exits_with_makedirs|apply exits_with_ret].
    - intros w0 c0 w0'. by rewrite probe_loop. }
  specialize (Hd w).
  destruct (destination (fresh input_dir exclusion) export_path w)
    as [[self|e|c'] w1]; [|done|].
  - cbv zeta. by destruct (re.compiled _ (filter_text pattern)).
  - by destruct (Hd c' w1).
Qed.

Lemma exits_with_copy_one P self replace old :
  exits_with P (copy_one self replace old).
Proof.
  apply exits_with_never. intros w c w'. rewrite copy_one_eval.
  destruct (export_path self) as [ep|]; [|done]. cbv zeta.
  destruct (_ && _); [done|].
  match goal with
  | |- shutil.copyfile ?a ?b ?w0 <> _ =>
      by destruct (copyfile_cases a b w0) as [[e ->]|(c0 & _ & _ & _ & ->)]
  end.
Qed.

Lemma exits_with_copy P self replace : exits_with P (copy self replace).
Proof.
  intros w c w'. rewrite copy_eval.
  destruct (Grassify.files self) as [files|]; [|done].
  pose proof (exits_with_for_each P (items files) (copy_one self replace)
                (exits_with_copy_one P self replace) w) as H.
  destruct (for_each (items files) (copy_one self replace) w)
    as [[[]|e|c'] w1]; try done.
  intros Heq. injection Heq as <- <-. by apply (H c' w1).
Qed.

(** What follows the construction in [main] never ends the process. *)
Lemma exits_with_main_tail P grassify (flags : gmap string bool) :
  exits_with P
    (p <- getitem flags "p" ;;
     if p then print_products grassify ;;; ret 0
     else
       r <- getitem flags "r" ;;
       copy grassify r ;;;
       ret 0).
Proof.
  apply exits_with_bind; [apply exits_with_getitem|].
  intros [].
  - apply exits_with_bind; [|intros _; apply exits_with_ret].
    unfold print_products. apply exits_with_bind.
    + apply exits_with_never. intros w c w'. unfold get_files.
      by destruct (Grassify.files grassify).
    + intros files. apply exits_with_for_each. intros f.
      by apply exits_with_never.
  - apply exits_with_bind; [apply exits_with_getitem|]. intros r.
    apply exits_with_bind; [apply exits_with_copy|]. intros _.
    apply exits_with_ret.
Qed.

Lemma bind_getitem_Exit {V B} (d : gmap string V) k (f : V -> M B) w c w' :
  bind (getitem d k) f w = (Exit c, w') ->
  exists v, d !! k = Some v /\ f v w = (Exit c, w').
Proof. unfold bind, getitem. destruct (d !! k) as [v|]; [eauto|discriminate]. Qed.

(** [main] ends the process only where [__init__] does. *)
Lemma main_Exit_inv options flags w c w' :
  main options flags w = (Exit c, w') ->
  exists input_dir export_path pattern exclusion,
    options !! "input_dir" = Some (Some input_dir) /\
    options !! "export_path" = Some export_path /\
    options !! "pattern" = Some pattern /\
    options !! "exclusion" = Some exclusion /\
    __init__ input_dir export_path pattern exclusion w = (Exit c, w').
Proof.
  unfold main. intros H.
  apply bind_getitem_Exit in H as (input_dir & Hi & H).
  apply bind_getitem_Exit in H as (export_path & He & H).
  apply bind_getitem_Exit in H as (pattern & Hp & H).
  apply bind_getitem_Exit in H as (exclusion & Hx & H).
  destruct input_dir as [input_dir|]; [|done].
  exists input_dir, export_path, pattern, exclusion.
  repeat (split; [done|]).
  unfold bind at 1 in H.
  destruct (__init__ input_dir export_path pattern exclusion w)
    as [[grassify|e|c'] w1]; [|done|by injection H as <- <-].
  destruct (exits_with_main_tail (fun _ => False) grassify flags w1 c w' H).
Qed.

Lemma main_Ret_zero options flags w code w' :
  main options flags w = (Ret code, w') -> code = 0.
Proof.
  unfold main. intros H.
  repeat (apply bind_Ret_inv in H as (? & ? & _ & H)).
  match type of H with (if ?b then _ else _) _ = _ => destruct b end.
  - apply bind_Ret_inv in H as (? & ? & _ & H). by injection H as <- _.
  - repeat (apply bind_Ret_inv in H as (? & ? & _ & H)). by injection H as <- _.
Qed.

(** X14. The script leaves through [sys.exit] in two ways only. With
    status 0, when [main] has returned. With status 1, through the
    [gs.fatal] call of [__init__]: when the four options are there and
    [input_dir] is a name, not empty, that does not exist, the script
    emits the fatal message that names the directory, and nothing else,
    and ends with status 1, the file system as it was; and whenever the
    script ends through [sys.exit] with status 1, that is what happened.
    Every other failure is an exception that nothing catches, which ends
    the run too but is not a call of [sys.exit]. *)
Theorem script_exit_status options flags w :
  (forall c w',
      script options flags w = (Exit c, w') ->
      (c = 0 /\
       main (change_dict_value options (Some EmptyString) None) flags w
       = (Ret 0, w')) \/
      (c = 1 /\
       exists input_dir,
         options !! "input_dir" = Some (Some input_dir) /\
         input_dir <> EmptyString /\
         os.exists_in (w_fs w) input_dir = false /\
         w' = MkWorld (w_fs w) (w_walk w)
                (w_log w ++
                 [Fatal ("Input directory <" +:+ input_dir +:+ "> not exists")])
                (w_next w) (w_re w))) /\
  (forall input_dir export_path pattern exclusion,
      options !! "input_dir" = Some (Some input_dir) ->
      input_dir <> EmptyString ->
      options !! "export_path" = Some export_path ->
      options !! "pattern" = Some pattern ->
      options !! "exclusion" = Some exclusion ->
      os.exists_in (w_fs w) input_dir = false ->
      script options flags w
      = (Exit 1,
         MkWorld (w_fs w) (w_walk w)
           (w_log w ++
            [Fatal ("Input directory <" +:+ input_dir +:+ "> not exists")])
           (w_next w) (w_re w))).
Proof.
  set (d := change_dict_value options (Some EmptyString) None).
  split.
  - intros c w' H. unfold script in H. cbv zeta in H. fold d in H.
    unfold bind in H.
    destruct (main d flags w) as [[code|e|c'] w1] eqn:Hmain; [| done |].
    + injection H as <- <-. left.
      by rewrite (main_Ret_zero d flags w code w1 Hmain).
    + injection H as <- <-. right.
      apply main_Exit_inv in Hmain
          as (input_dir & ep & pat & ex & Hi & _ & _ & _ & Hinit).
      apply init_Exit_inv in Hinit as (-> & Hex & ->).
      split; [done|]. exists input_dir.
      unfold d in Hi. rewrite changed_lookup in Hi.
      destruct (options !! "input_dir") as [v|] eqn:Hv; [|done].
      simpl in Hi. unfold changed in Hi.
      destruct (decide (v = Some EmptyString)) as [->|Hne]; [done|].
      injection Hi as ->. split; [done|]. split; [congruence|]. done.
  - intros input_dir export_path pattern exclusion Hi Hne He Hp Hx Hex.
    unfold script. cbv zeta. fold d.
    assert (d !! "input_dir" = Some (Some input_dir)) as Hi'.
    { unfold d. rewrite changed_lookup. unfold pyval in *. rewrite Hi. simpl.
      unfold changed. destruct (decide _) as [Heq|]; [|done]. congruence. }
    assert (d !! "export_path" = Some (changed (Some EmptyString) None export_path))
      as He' by (unfold d; rewrite changed_lookup; unfold pyval in *; by rewrite He).
    assert (d !! "pattern" = Some (changed (Some EmptyString) None pattern))
      as Hp' by (unfold d; rewrite changed_lookup; unfold pyval in *; by rewrite Hp).
    assert (d !! "exclusion" = Some (changed (Some EmptyString) None exclusion))
      as Hx' by (unfold d; rewrite changed_lookup; unfold pyval in *; by rewrite Hx).
    rewrite (bind_Exit (main d flags) _ w 1
               (log_add w (Fatal ("Input directory <" +:+ input_dir
                                  +:+ "> not exists")))); [done|].
    unfold main.
    rewrite (bind_Ret _ _ _ _ _ (getitem_Some d _ _ w Hi')).
    rewrite (bind_Ret _ _ _ _ _ (getitem_Some d _ _ w He')).
    rewrite (bind_Ret _ _ _ _ _ (getitem_Some d _ _ w Hp')).
    rewrite (bind_Ret _ _ _ _ _ (getitem_Some d _ _ w Hx')).
    apply bind_Exit. by rewrite init_eval, Hex.
Qed.

Lemma script_exit_status_witness :
  script (options_for "/nope" "/out") (flags_for false false) pkg_world
  = (Exit 1,
     World pkg_fs (walk_of "/pkg" pkg_recs)
       [Fatal "Input directory </nope> not exists"] 0).
Proof.
  apply (proj2 (script_exit_status (options_for "/nope" "/out")
                  (flags_for false false) pkg_world)
           "/nope" (Some "/out") (Some EmptyString) (Some EmptyString));
    reflexivity || discriminate.
Defined.

(** X15. An empty [input_dir] option reaches [main] as [None]: the script
    then raises [TypeError] before it touches anything, whatever the other
    options and the flags are. *)
Theorem empty_input_dir_is_a_type_error
    options flags w export_path pattern exclusion :
  options !! "input_dir" = Some (Some EmptyString) ->
  options !! "export_path" = Some export_path ->
  options !! "pattern" = Some pattern ->
  options !! "exclusion" = Some exclusion ->
  script options flags w = (Raise TypeError, w).
Proof.
  intros Hi He Hp Hx. unfold script. cbv zeta.
  rewrite (bind_Raise (main _ flags) _ w TypeError w); [done|]. unfold main.
  set (d := change_dict_value options (Some EmptyString) None).
  assert (d !! "input_dir" = Some None) as Hi'
    by (unfold d; rewrite changed_lookup; unfold pyval in *; by rewrite Hi).
  assert (d !! "export_path" = Some (changed (Some EmptyString) None export_path))
    as He' by (unfold d; rewrite changed_lookup; unfold pyval in *; by rewrite He).
  assert (d !! "pattern" = Some (changed (Some EmptyString) None pattern))
    as Hp' by (unfold d; rewrite changed_lookup; unfold pyval in *; by rewrite Hp).
  assert (d !! "exclusion" = Some (changed (Some EmptyString) None exclusion))
    as Hx' by (unfold d; rewrite changed_lookup; unfold pyval in *; by rewrite Hx).
  rewrite (bind_Ret _ _ _ _ _ (getitem_Some d _ _ w Hi')).
  rewrite (bind_Ret _ _ _ _ _ (getitem_Some d _ _ w He')).
  rewrite (bind_Ret _ _ _ _ _ (getitem_Some d _ _ w Hp')).
  rewrite (bind_Ret _ _ _ _ _ (getitem_Some d _ _ w Hx')).
  reflexivity.
Qed.

Lemma empty_input_dir_witness :
  script (options_for EmptyString "/out") (flags_for false true) pkg_world
  = (Raise TypeError, pkg_world).
Proof.
  apply (empty_input_dir_is_a_type_error (options_for EmptyString "/out")
           (flags_for false true) pkg_world (Some "/out") (Some EmptyString)
           (Some EmptyString)); reflexivity.
Defined.

End MainFacts.

Section CopyResults.
Import PyStr posixpath Grassify Spec InitSpec CopySpec Frames Examples More.

(** X16. An export path that is given is taken as it is: where it exists,
    as a directory or as anything else, [__init__] probes no candidate,
    makes no directory and stores the path as [self.export_path], the file
    system left as it was. *)
Theorem explicit_export_path_is_taken_as_given
    input_dir export_path pattern exclusion w r :
  os.exists_in (w_fs w) input_dir = true ->
  os.exists_in (w_fs w) export_path = true ->
  re.compile (filter_text pattern) = Some r ->
  exists self w',
    __init__ input_dir (Some export_path) pattern exclusion w = (Ret self, w') /\
    Grassify.export_path self = Some export_path /\
    import_path self = input_dir /\
    w_fs w' = w_fs w.
Proof.
  intros Hin Hex Hc. rewrite init_eval, Hin. simpl negb. cbv iota.
  unfold destination.
  rewrite (bind_Ret (os.path_exists export_path) _ w true w)
    by (unfold os.path_exists, bind, get_fs, ret; by rewrite Hex).
  simpl negb. cbv iota.
  rewrite (bind_Ret (ret tt) _ w tt w) by reflexivity.
  unfold ret at 1. cbv zeta. rewrite (compiled_fragment _ _ _ Hc).
  eexists _, _. split; [reflexivity|]. by repeat split.
Qed.

Lemma explicit_export_path_witness :
  exists self w',
    __init__ "/pkg" (Some "/pkg/__init__.py") None None grass_world = (Ret self, w') /\
    Grassify.export_path self = Some "/pkg/__init__.py" /\
    import_path self = "/pkg" /\
    w_fs w' = w_fs grass_world.
Proof.
  apply (explicit_export_path_is_taken_as_given "/pkg" "/pkg/__init__.py" None None
           grass_world
           (re.Cat (re.Cat (re.Cat (re.Cat re.Eps (re.Star re.Dot)) re.Dot)
                      (re.Chr "p")) (re.Chr "y"))
           eq_refl eq_refl eq_refl).
Defined.




Lemma exists_in_kinds w w' p :
  kinds_kept w w' -> os.exists_in (w_fs w) p = true ->
  os.exists_in (w_fs w') p = true.
Proof.
  unfold os.exists_in. intros H. specialize (H p).
  destruct (w_fs w !! p) as [[c|]|]; [| |done].
  - destruct H as [c' ->]. done.
  - by rewrite H.
Qed.

Lemma copy_one_Ret_dest self replace old w w' :
  copy_one self replace old w = (Ret tt, w') ->
  exists ep, export_path self = Some ep /\
             os.exists_in (w_fs w') (dest ep old) = true.
Proof.
  intros H. pose proof H as Heff.
  apply copy_one_effect in Heff
      as [[-> Hskip]|(_ & ep & c & t & Hep & Ht & _ & _ & _ & _ & ->)].
  - destruct (Hskip eq_refl) as (ep & Hep & _ & Hex). eauto.
  - exists ep. split; [done|]. unfold os.exists_in. simpl.
    destruct (decide (t = dest ep old)) as [->|Hne].
    + by rewrite lookup_insert_eq.
    + rewrite lookup_insert_ne by done.
      unfold os.isdir_in in Ht.
      destruct (w_fs w !! dest ep old) as [[?|]|]; try done.
Qed.

(** X18. When [copy] returns, with or without the replace flag, the
    destination of every discovered file exists. *)
Theorem every_destination_exists_after_copy self files replace w w' :
  Grassify.files self = Some files ->
  copy self replace w = (Ret 0, w') ->
  forall old, In old (items files) ->
    exists ep, export_path self = Some ep /\
               os.exists_in (w_fs w') (join ep (base_of old)) = true.
Proof.
  intros Hf Hrun old Hold.
  rewrite copy_eval, Hf in Hrun.
  destruct (for_each (items files) (copy_one self replace) w)
    as [[[]|e|c0] w2] eqn:Hloop; [|done..].
  injection Hrun as <-.
  apply in_split in Hold as (l1 & l2 & Hl). rewrite Hl in Hloop.
  apply for_each_app_Ret in Hloop as (w1 & _ & Hloop).
  rewrite for_each_cons in Hloop.
  destruct (copy_one self replace old w1) as [r w3] eqn:H3.
  destruct r as [[]|e|c0]; [|done..].
  apply copy_one_Ret_dest in H3 as (ep & Hep & Hex).
  exists ep. split; [done|].
  eapply exists_in_kinds; [|exact Hex].
  pose proof (maintains_for_each kinds_kept kinds_kept_refl kinds_kept_trans
                l2 (copy_one self replace)
                (fun x _ => copy_one_kinds self replace x) w3) as H.
  by rewrite Hloop in H.
Qed.

Lemma every_destination_exists_witness :
  exists ep, export_path (instance "/pkg" (Some "/out")
                            ["/pkg/i_script.py"; "/pkg/i_dr_import.py"]) = Some ep /\
    os.exists_in
      (w_fs (snd (copy (instance "/pkg" (Some "/out")
                          ["/pkg/i_script.py"; "/pkg/i_dr_import.py"])
                    false pkg_world)))
      (join ep (base_of "/pkg/i_dr_import.py")) = true.
Proof.
  assert (copy (instance "/pkg" (Some "/out")
                  ["/pkg/i_script.py"; "/pkg/i_dr_import.py"]) false pkg_world
          = (Ret 0,
             snd (copy (instance "/pkg" (Some "/out")
                          ["/pkg/i_script.py"; "/pkg/i_dr_import.py"])
                    false pkg_world))) as Hrun by (vm_compute; reflexivity).
  apply (every_destination_exists_after_copy
           (instance "/pkg" (Some "/out") ["/pkg/i_script.py"; "/pkg/i_dr_import.py"])
           (PyList 0 ["/pkg/i_script.py"; "/pkg/i_dr_import.py"]) false pkg_world _
           eq_refl Hrun).
  right. left. reflexivity.
Defined.

End CopyResults.
